(** * SilksongRL python client: rollout orchestration and socket framing

    A shallow embedding of [sb3_ppo_override.py] (class [CustomPPO]) and of
    [socket_server_async.py] (class [AsyncRLSocketServer]), with the
    properties of the training-session orchestrator proved over it.

    Python objects are records, the methods are functions that thread the
    object and the world explicitly.  The world holds what outlives a method
    call: the Python list objects (so that two references to one list see
    each other's [append]) and the chronological trace of the calls made to
    the collaborators that are not part of this repository (Stable
    Baselines3's rollout buffer, [save] and [train]). *)

From Stdlib Require Import ZArith Lia List Bool.
From Stdlib Require Import Init.Byte.
From Stdlib Require Strings.Byte DecimalString.
From stdpp Require Import gmap strings list.

Local Open Scope Z_scope.
Set Warnings "-register-all".

(** ** sb3_ppo_override.py *)

(** Exceptions that the modelled code raises. *)
Inductive exn :=
  | IncompleteReadError
  | ValueError (msg : string)
  | JSONDecodeError
  | KeyError (key : string)
  | TypeError (msg : string)
  | AttributeError (msg : string)
  | StructError
  | RuntimeError (msg : string).

(** A reference to a Python list object. *)
Definition loc := nat.

(** [episode_rewards: List[float] = []] in the signature of
    [CustomPPO.__init__]: the default value is one list object, created when
    the [def] statement runs, and every call that omits the argument
    receives that same object. *)
Definition episode_rewards_default : loc := 0%nat.

Section CustomPPO.

(** Observations, actions, rewards (Python floats with their addition
    and [0.0]), and the tensors of the policy network. *)
Context {Obs Act Rew Val LogP Policy : Type}.
Variable radd : Rew -> Rew -> Rew.
Variable rzero : Rew.

(** One row of the rollout buffer, as passed to [RolloutBuffer.add]. *)
Record entry := {
  e_obs : Obs;
  e_action : Act;
  e_reward : Rew;
  e_episode_start : bool;
  e_value : Val;
  e_log_prob : LogP
}.

(** The policy network: [policy.predict_values], the log-probability of an
    action under [policy.get_distribution], and [PPO.train] over the
    rollout with the bootstrap value given to
    [compute_returns_and_advantage]. *)
Variable predict_values : Policy -> Obs -> Val.
Variable log_prob : Policy -> Obs -> Act -> LogP.
Variable train : Policy -> list entry -> Val -> Policy.

(** [os.path.join]. *)
Variable path_join : string -> string -> string.

(** Calls to the collaborators, in the order they are made. *)
Inductive event :=
  | Makedirs (dir : string)
  | Save (path : string) (episodes : Z)
  | Add (e : entry)
  | Train (rollout : list entry) (last_values : Val)
  | ResetBuffer.

Record world := {
  lists : gmap loc (list Rew);
  trace : list event
}.

(** The attributes of a [CustomPPO] object.  [rollout_buffer] is [None]
    while the attribute does not exist (inside [load], before
    [_setup_model]); otherwise it holds the rows added since the last
    [reset], so that [pos] is its length. *)
Record CustomPPO := {
  last_done : bool;
  times_trained : Z;
  boss_name : option string;
  save_freq : Z;
  episodes_completed : Z;
  episode_rewards : loc;
  current_episode_reward : Rew;
  rollout_buffer : option (list entry);
  n_steps : Z;
  policy : Policy
}.

Definition set_last_done (self : CustomPPO) (b : bool) : CustomPPO :=
  {| last_done := b; times_trained := times_trained self;
     boss_name := boss_name self; save_freq := save_freq self;
     episodes_completed := episodes_completed self;
     episode_rewards := episode_rewards self;
     current_episode_reward := current_episode_reward self;
     rollout_buffer := rollout_buffer self; n_steps := n_steps self;
     policy := policy self |}.

Definition set_times_trained (self : CustomPPO) (n : Z) : CustomPPO :=
  {| last_done := last_done self; times_trained := n;
     boss_name := boss_name self; save_freq := save_freq self;
     episodes_completed := episodes_completed self;
     episode_rewards := episode_rewards self;
     current_episode_reward := current_episode_reward self;
     rollout_buffer := rollout_buffer self; n_steps := n_steps self;
     policy := policy self |}.

Definition set_episodes_completed (self : CustomPPO) (n : Z) : CustomPPO :=
  {| last_done := last_done self; times_trained := times_trained self;
     boss_name := boss_name self; save_freq := save_freq self;
     episodes_completed := n;
     episode_rewards := episode_rewards self;
     current_episode_reward := current_episode_reward self;
     rollout_buffer := rollout_buffer self; n_steps := n_steps self;
     policy := policy self |}.

Definition set_current_episode_reward (self : CustomPPO) (r : Rew) : CustomPPO :=
  {| last_done := last_done self; times_trained := times_trained self;
     boss_name := boss_name self; save_freq := save_freq self;
     episodes_completed := episodes_completed self;
     episode_rewards := episode_rewards self;
     current_episode_reward := r;
     rollout_buffer := rollout_buffer self; n_steps := n_steps self;
     policy := policy self |}.

Definition set_rollout_buffer (self : CustomPPO) (b : option (list entry)) : CustomPPO :=
  {| last_done := last_done self; times_trained := times_trained self;
     boss_name := boss_name self; save_freq := save_freq self;
     episodes_completed := episodes_completed self;
     episode_rewards := episode_rewards self;
     current_episode_reward := current_episode_reward self;
     rollout_buffer := b; n_steps := n_steps self;
     policy := policy self |}.

Definition set_policy (self : CustomPPO) (p : Policy) : CustomPPO :=
  {| last_done := last_done self; times_trained := times_trained self;
     boss_name := boss_name self; save_freq := save_freq self;
     episodes_completed := episodes_completed self;
     episode_rewards := episode_rewards self;
     current_episode_reward := current_episode_reward self;
     rollout_buffer := rollout_buffer self; n_steps := n_steps self;
     policy := p |}.

(** The contents of a list object, [l.append(x)], and the record of a
    call to a collaborator. *)
Definition contents (w : world) (l : loc) : list Rew :=
  default [] (lists w !! l).

Definition append (l : loc) (x : Rew) (w : world) : world :=
  {| lists := <[l := contents w l ++ [x]]> (lists w); trace := trace w |}.

Definition emit (ev : event) (w : world) : world :=
  {| lists := lists w; trace := trace w ++ [ev] |}.

(** The world when the module has been imported: the default list of the
    constructor exists and is empty.  [new_list] is a list display or an
    unpickled list: a new object. *)
Definition imported : world :=
  {| lists := {[ episode_rewards_default := [] ]}; trace := [] |}.

Definition new_list (xs : list Rew) (w : world) : loc * world :=
  let l := fresh (dom (lists w)) in
  (l, {| lists := <[l := xs]> (lists w); trace := trace w |}).

(** The episode-reward history of an object: what [self.episode_rewards]
    refers to. *)
Definition history (self : CustomPPO) (w : world) : list Rew :=
  contents w (episode_rewards self).

(** [pos] of the rollout buffer. *)
Definition pos (self : CustomPPO) : Z :=
  match rollout_buffer self with
  | Some rows => Z.of_nat (length rows)
  | None => 0
  end.

(** What the call of the constructor of [PPO] leaves behind: the policy,
    [n_steps], and a freshly created rollout buffer unless
    [_init_setup_model=False] was passed. *)
Definition PPO__init__ (pol : Policy) (steps : Z) (_init_setup_model : bool)
  : Policy * Z * option (list entry) :=
  (pol, steps, if _init_setup_model then Some [] else None).

(** [CustomPPO.__init__].  A keyword argument that the caller omits is
    [None] here and takes the default of the signature. *)
Definition __init__ (pol : Policy) (steps : Z) (_init_setup_model : bool)
    (boss : option string) (freq trained completed : option Z)
    (rewards : option loc) : CustomPPO :=
  let '(pol, steps, buffer) := PPO__init__ pol steps _init_setup_model in
  {| last_done := false;
     times_trained := default 0 trained;
     boss_name := boss;
     save_freq := default 50 freq;
     episodes_completed := default 0 completed;
     episode_rewards := default episode_rewards_default rewards;
     current_episode_reward := rzero;
     rollout_buffer :=
       match buffer with
       | Some _ => Some []
       | None => None
       end;
     n_steps := steps;
     policy := pol |}.

(** [start_new_rollout]. *)
Definition start_new_rollout (self : CustomPPO) (w : world)
  : CustomPPO * world * option exn :=
  match rollout_buffer self with
  | Some _ => (set_rollout_buffer self (Some []), emit ResetBuffer w, None)
  | None =>
      (self, w, Some (AttributeError "rollout_buffer"))
  end.

(** [_boss_directory]: [os.path.join] rejects [None] with the [TypeError]
    of its argument check. *)
Definition _boss_directory (self : CustomPPO) : exn + string :=
  match boss_name self with
  | Some boss_dir => inr (path_join "models" boss_dir)
  | None => inl (TypeError "join() argument must be str, bytes, or os.PathLike object, not 'NoneType'")
  end.

(** [finish_rollout_and_train].  It is only reached with a rollout
    buffer in place. *)
Definition finish_rollout_and_train (self : CustomPPO) (w : world)
    (next_obs : Obs) : CustomPPO * world * option exn :=
  let last_values := predict_values (policy self) next_obs in
  match rollout_buffer self with
  | None => (self, w, Some (AttributeError "rollout_buffer"))
  | Some rows =>
      let w := emit (Train rows last_values) w in
      let self := set_policy self (train (policy self) rows last_values) in
      let self := set_rollout_buffer self (Some []) in
      let w := emit ResetBuffer w in
      let self := set_times_trained self (times_trained self + 1) in
      let self := set_episodes_completed self (episodes_completed self + 1) in
      let w := append (episode_rewards self) (current_episode_reward self) w in
      let self := set_current_episode_reward self rzero in
      (self, w, None)
  end.

(** [store_transition].  The returned object and world are those the
    call leaves behind, also when it raises: nothing is rolled back. *)
Definition store_transition (self : CustomPPO) (w : world)
    (obs : Obs) (action : Act) (reward : Rew) (next_obs : Obs) (done : bool)
  : CustomPPO * world * option exn :=
  let self := set_current_episode_reward self
                (radd (current_episode_reward self) reward) in
  let '(self, w, raised) :=
    if done then
      let self := set_episodes_completed self (episodes_completed self + 1) in
      let w := append (episode_rewards self) (current_episode_reward self) w in
      let self := set_current_episode_reward self rzero in
      if negb (save_freq self =? 0)
         && (episodes_completed self mod save_freq self =? 0) then
        match _boss_directory self with
        | inl e => (self, w, Some e)
        | inr save_dir =>
            let w := emit (Makedirs save_dir) w in
            let save_path := path_join save_dir "checkpoint" in
            let w := emit (Save save_path (episodes_completed self)) w in
            (self, w, None)
        end
      else (self, w, None)
    else (self, w, None) in
  match raised with
  | Some e => (self, w, Some e)
  | None =>
      let value := predict_values (policy self) obs in
      let lp := log_prob (policy self) obs action in
      match rollout_buffer self with
      | None => (self, w, Some (AttributeError "rollout_buffer"))
      | Some rows =>
          let row := {| e_obs := obs; e_action := action; e_reward := reward;
                        e_episode_start := last_done self;
                        e_value := value; e_log_prob := lp |} in
          let self := set_rollout_buffer self (Some (rows ++ [row])) in
          let w := emit (Add row) w in
          let self := set_last_done self done in
          if n_steps self <=? pos self
          then finish_rollout_and_train self w next_obs
          else (self, w, None)
      end
  end.

(** One STORE_TRANSITION request, and a session of them.  An exception
    of one call is reported to the client and the next call runs on the
    state that the failed call left. *)
Record transition := {
  t_obs : Obs;
  t_action : Act;
  t_reward : Rew;
  t_next_obs : Obs;
  t_done : bool
}.

Definition step (st : CustomPPO * world) (c : transition) : CustomPPO * world :=
  let '(self, w, _) :=
    store_transition (fst st) (snd st)
      (t_obs c) (t_action c) (t_reward c) (t_next_obs c) (t_done c) in
  (self, w).

Definition run (cs : list transition) (st : CustomPPO * world) : CustomPPO * world :=
  fold_left step cs st.

(** Observations of a trace: the training updates, the checkpoints and
    the rows handed to the rollout buffer. *)
Definition is_train (ev : event) : bool :=
  match ev with Train _ _ => true | _ => false end.

Definition trains (tr : list event) : Z :=
  Z.of_nat (length (List.filter is_train tr)).

Definition saves (tr : list event) : list Z :=
  omap (fun ev => match ev with Save _ n => Some n | _ => None end) tr.

Definition added (tr : list event) : list entry :=
  omap (fun ev => match ev with Add e => Some e | _ => None end) tr.

Definition dones (cs : list transition) : Z :=
  Z.of_nat (length (List.filter t_done cs)).

(** *** One call *)

Lemma trains_app tr1 tr2 : trains (tr1 ++ tr2) = trains tr1 + trains tr2.
Proof. unfold trains. rewrite List.filter_app, length_app. lia. Qed.

Lemma saves_app tr1 tr2 : saves (tr1 ++ tr2) = saves tr1 ++ saves tr2.
Proof. unfold saves. apply omap_app. Qed.

Lemma added_app tr1 tr2 : added (tr1 ++ tr2) = added tr1 ++ added tr2.
Proof. unfold added. apply omap_app. Qed.

Lemma contents_append l x w : contents (append l x w) l = contents w l ++ [x].
Proof. unfold contents, append. simpl. by rewrite lookup_insert_eq. Qed.

Lemma contents_emit ev w l : contents (emit ev w) l = contents w l.
Proof. reflexivity. Qed.

Lemma contents_append_ne l l' x w :
  l <> l' -> contents (append l x w) l' = contents w l'.
Proof. intros Hne. unfold contents, append. simpl. by rewrite lookup_insert_ne. Qed.

(** Whether a call with this [done] checkpoints, and whether it ends
    the rollout. *)
Definition checkpoint_due (self : CustomPPO) (done : bool) : bool :=
  done && negb (save_freq self =? 0)
       && ((episodes_completed self + 1) mod save_freq self =? 0).

Definition rollout_full (self : CustomPPO) : bool :=
  n_steps self <=? pos self + 1.

Ltac run_call :=
  lazy beta iota zeta delta [store_transition finish_rollout_and_train
    _boss_directory checkpoint_due rollout_full pos history
    set_current_episode_reward set_episodes_completed set_last_done set_policy
    set_rollout_buffer set_times_trained last_done times_trained boss_name
    save_freq episodes_completed episode_rewards current_episode_reward
    rollout_buffer n_steps policy].

(** A call on an object that has its rollout buffer and a boss name does
    not raise, and this is what it leaves. *)
Lemma store_transition_ok self w obs action reward next_obs done rows boss :
  rollout_buffer self = Some rows ->
  boss_name self = Some boss ->
  let row := {| e_obs := obs; e_action := action; e_reward := reward;
                e_episode_start := last_done self;
                e_value := predict_values (policy self) obs;
                e_log_prob := log_prob (policy self) obs action |} in
  let total := radd (current_episode_reward self) reward in
  let full := rollout_full self in
  exists self' w',
    store_transition self w obs action reward next_obs done = (self', w', None)
    /\ rollout_buffer self' = Some (if full then [] else rows ++ [row])
    /\ last_done self' = done
    /\ times_trained self' = times_trained self + (if full then 1 else 0)
    /\ episodes_completed self'
       = episodes_completed self + (if done then 1 else 0) + (if full then 1 else 0)
    /\ current_episode_reward self' = (if done || full then rzero else total)
    /\ (n_steps self', save_freq self', boss_name self', episode_rewards self')
       = (n_steps self, save_freq self, boss_name self, episode_rewards self)
    /\ history self' w'
       = history self w ++ (if done then [total] else [])
           ++ (if full then [if done then rzero else total] else [])
    /\ trace w'
       = trace w
           ++ (if checkpoint_due self done
               then [Makedirs (path_join "models" boss);
                     Save (path_join (path_join "models" boss) "checkpoint")
                          (episodes_completed self + 1)]
               else [])
           ++ [Add row]
           ++ (if full
               then [Train (rows ++ [row])
                           (predict_values (policy self) next_obs); ResetBuffer]
               else []).
Proof.
  intros Hbuf Hboss row total full. subst row total full.
  destruct self as [ld tt bn sf ec er cur rb ns pol]. simpl in Hbuf, Hboss.
  subst rb bn. run_call.
  destruct done, (sf =? 0), ((ec + 1) mod sf =? 0);
    simpl; rewrite length_app;
    replace (Z.of_nat (length rows + length [_])) with (Z.of_nat (length rows) + 1)
      by (simpl; lia);
    destruct (ns <=? Z.of_nat (length rows) + 1); run_call;
    eexists _, _; (split; [reflexivity|]); simpl;
    repeat (rewrite contents_append || rewrite contents_emit);
    rewrite <- ?app_assoc, ?app_nil_r; simpl;
    repeat split; try reflexivity; try lia.
Qed.

(** *** Sessions *)

(** An object as INITIALIZE leaves it and as every later call keeps it:
    it has a boss name, rollout horizon [H], and a rollout buffer that is
    not yet full. *)
Definition ready (H : Z) (self : CustomPPO) : Prop :=
  is_Some (boss_name self) /\ n_steps self = H /\
  exists rows, rollout_buffer self = Some rows /\ Z.of_nat (length rows) < H.

Lemma ready_pos H self : ready H self -> 0 <= pos self < H.
Proof.
  intros (_ & _ & rows & Hbuf & Hlt). unfold pos. rewrite Hbuf. lia.
Qed.

Lemma step_eq st c :
  step st c =
  ((store_transition st.1 st.2 (t_obs c) (t_action c) (t_reward c)
      (t_next_obs c) (t_done c)).1.1,
   (store_transition st.1 st.2 (t_obs c) (t_action c) (t_reward c)
      (t_next_obs c) (t_done c)).1.2).
Proof. unfold step. by destruct (store_transition _ _ _ _ _ _ _) as [[? ?] ?]. Qed.

Lemma run_app cs1 cs2 st : run (cs1 ++ cs2) st = run cs2 (run cs1 st).
Proof. unfold run. apply fold_left_app. Qed.

Lemma run_snoc cs c st : run (cs ++ [c]) st = step (run cs st) c.
Proof. by rewrite run_app. Qed.

(** What one request does to a ready object. *)
Lemma step_ready H self w c :
  0 < H -> ready H self ->
  let full := rollout_full self in
  let total := radd (current_episode_reward self) (t_reward c) in
  let st := step (self, w) c in
  ready H st.1
  /\ pos st.1 = (if full then 0 else pos self + 1)
  /\ last_done st.1 = t_done c
  /\ times_trained st.1 = times_trained self + (if full then 1 else 0)
  /\ episodes_completed st.1
     = episodes_completed self + (if t_done c then 1 else 0)
       + (if full then 1 else 0)
  /\ current_episode_reward st.1 = (if t_done c || full then rzero else total)
  /\ (save_freq st.1, boss_name st.1, episode_rewards st.1)
     = (save_freq self, boss_name self, episode_rewards self)
  /\ history st.1 st.2
     = history self w ++ (if t_done c then [total] else [])
         ++ (if full then [if t_done c then rzero else total] else [])
  /\ trains (trace st.2) = trains (trace w) + (if full then 1 else 0)
  /\ saves (trace st.2)
     = saves (trace w)
         ++ (if checkpoint_due self (t_done c)
             then [episodes_completed self + 1] else [])
  /\ exists rows row,
       rollout_buffer self = Some rows
       /\ e_episode_start row = last_done self
       /\ rollout_buffer st.1 = Some (if full then [] else rows ++ [row])
       /\ added (trace st.2) = added (trace w) ++ [row].
Proof.
  intros HH (Hboss & Hn & rows & Hbuf & Hlt) full total st.
  destruct Hboss as [boss Hboss].
  destruct (store_transition_ok self w (t_obs c) (t_action c) (t_reward c)
              (t_next_obs c) (t_done c) rows boss Hbuf Hboss)
    as (self' & w' & Heq & Hb' & Hld & Htt & Hec & Hcur & Hconst & Hhist & Htr).
  subst st. rewrite step_eq. simpl. rewrite Heq. simpl.
  injection Hconst as Hn' Hsf Hbn Her.
  fold full in Hb', Htt, Hec, Hcur, Hhist, Htr. fold total in Hcur, Hhist.
  assert (Hfull : full = (H <=? Z.of_nat (length rows) + 1)).
  { unfold full, rollout_full, pos. by rewrite Hbuf, Hn. }
  split.
  { split; [rewrite Hbn; eauto|]. split; [congruence|].
    eexists; split; [exact Hb'|].
    rewrite Hfull. destruct (Z.leb_spec H (Z.of_nat (length rows) + 1));
      [simpl; lia|]. rewrite length_app. simpl. lia. }
  split.
  { unfold pos. rewrite Hb', Hbuf. destruct full; [done|].
    rewrite length_app. simpl. lia. }
  repeat split; try done; try congruence.
  - rewrite Htr, !trains_app.
    destruct (checkpoint_due _ _), full; unfold trains; simpl; lia.
  - rewrite Htr, !saves_app. destruct (checkpoint_due _ _), full; simpl;
      by rewrite ?app_nil_r.
  - eexists rows, _. split; [done|]. split; [|split; [exact Hb'|]]; [done|].
    rewrite Htr, !added_app.
    destruct (checkpoint_due _ _), full; simpl; by rewrite ?app_nil_r.
Qed.

Lemma div_mod_split H a b : 0 < H -> a / H + (a mod H + b) / H = (a + b) / H.
Proof.
  intros HH. rewrite (Z.div_mod a H) at 3 by lia.
  replace (H * (a / H) + a mod H + b) with (a / H * H + (a mod H + b)) by lia.
  rewrite Z.div_add_l by lia. reflexivity.
Qed.

(** Occupancy and the number of updates after any session of requests:
    the buffer fills modulo the horizon and every wrap is one update. *)
Lemma run_occupancy H cs : forall self w,
  0 < H -> ready H self ->
  let st := run cs (self, w) in
  let n := pos self + Z.of_nat (length cs) in
  ready H st.1
  /\ pos st.1 = n mod H
  /\ times_trained st.1 = times_trained self + n / H
  /\ trains (trace st.2) = trains (trace w) + n / H.
Proof.
  induction cs as [|c cs IH]; intros self w HH Hready; simpl.
  - pose proof (ready_pos _ _ Hready) as Hp.
    rewrite Z.add_0_r, Z.mod_small, Z.div_small by lia.
    split; [exact Hready|]. repeat split; lia.
  - pose proof (ready_pos _ _ Hready) as Hp.
    destruct (step_ready H self w c HH Hready)
      as (Hr & Hpos & _ & Htt & _ & _ & _ & _ & Htr & _).
    destruct (step (self, w) c) as [self1 w1] eqn:Hstep. simpl in *.
    destruct (IH self1 w1 HH Hr) as (Hr' & Hpos' & Htt' & Htr').
    assert (Hone : pos self1 = (pos self + 1) mod H
                   /\ (if rollout_full self then 1 else 0) = (pos self + 1) / H).
    { rewrite Hpos. unfold rollout_full.
      destruct Hready as (_ & Hn & _). rewrite Hn.
      destruct (Z.leb_spec H (pos self + 1)).
      - replace (pos self + 1) with H by lia.
        rewrite Z.mod_same, Z.div_same by lia. done.
      - rewrite Z.mod_small, Z.div_small by lia. done. }
    destruct Hone as [Hm Hd].
    replace (pos self + Z.of_nat (S (length cs)))
      with (pos self + 1 + Z.of_nat (length cs)) by lia.
    split; [exact Hr'|].
    rewrite Hpos', Htt', Htr', Htt, Htr, Hd, Hm.
    rewrite Zplus_mod_idemp_l.
    rewrite <- (div_mod_split H (pos self + 1) (Z.of_nat (length cs))) by lia.
    repeat split; lia.
Qed.

(** C1.  After initialization with rollout horizon [H], a session of [N]
    requests leaves occupancy [N] and no update while [N < H]; the
    [H]-th request finds occupancy [H - 1], performs exactly one update
    within that call and leaves occupancy 0; and after any session
    occupancy is below the horizon.  This holds whatever the requests'
    [done] flags are, in particular when all are false. *)
Theorem rollout_occupancy_and_update (H : Z) (self : CustomPPO) (w : world)
    (cs : list transition) :
  0 < H -> n_steps self = H -> is_Some (boss_name self) ->
  rollout_buffer self = Some [] ->
  let st := run cs (self, w) in
  let N := Z.of_nat (length cs) in
  (N < H ->
     pos st.1 = N /\ times_trained st.1 = times_trained self
     /\ trains (trace st.2) = trains (trace w))
  /\ (N = H ->
     let before := run (take (length cs - 1) cs) (self, w) in
     pos before.1 = H - 1
     /\ trains (trace before.2) = trains (trace w)
     /\ pos st.1 = 0
     /\ times_trained st.1 = times_trained self + 1
     /\ trains (trace st.2) = trains (trace w) + 1)
  /\ pos st.1 < H.
Proof.
  intros HH Hn Hboss Hbuf st N.
  assert (Hready : ready H self).
  { split; [done|]. split; [done|]. exists []. split; [done|]. simpl. lia. }
  assert (Hp0 : pos self = 0) by (unfold pos; by rewrite Hbuf).
  destruct (run_occupancy H cs self w HH Hready) as (Hr & Hpos & Htt & Htr).
  fold st in Hr, Hpos, Htt, Htr. rewrite Hp0, Z.add_0_l in Hpos, Htt, Htr.
  fold N in Hpos, Htt, Htr.
  split; [|split].
  - intros Hlt. rewrite Hpos, Htt, Htr.
    rewrite Z.mod_small, Z.div_small by lia. lia.
  - intros Heq before.
    destruct (run_occupancy H (take (length cs - 1) cs) self w HH Hready)
      as (_ & Hpos1 & _ & Htr1).
    fold before in Hpos1, Htr1.
    rewrite Hp0, Z.add_0_l, length_take in Hpos1, Htr1.
    replace (Z.of_nat (length cs - 1 `min` length cs)) with (H - 1)
      in Hpos1, Htr1 by lia.
    rewrite Hpos1, Htr1, Hpos, Htt, Htr, Heq.
    rewrite Z.mod_same, Z.div_same, Z.mod_small, Z.div_small by lia. lia.
  - apply (ready_pos H). exact Hr.
Qed.

Lemma run_ready H cs : forall self w,
  0 < H -> ready H self -> ready H (run cs (self, w)).1.
Proof.
  intros self w HH Hr. by destruct (run_occupancy H cs self w HH Hr) as [? _].
Qed.

Lemma run_episode_rewards H cs : forall self w,
  0 < H -> ready H self ->
  episode_rewards (run cs (self, w)).1 = episode_rewards self.
Proof.
  induction cs as [|c cs IH]; intros self w HH Hready; simpl; [done|].
  destruct (step_ready H self w c HH Hready)
    as (Hr & _ & _ & _ & _ & _ & Hconst & _).
  destruct (step (self, w) c) as [self1 w1]. simpl in *.
  rewrite (IH self1 w1 HH Hr). congruence.
Qed.

(** The history grows by one entry for every request with [done] and by
    one for every update. *)
Lemma run_history H cs : forall self w,
  0 < H -> ready H self ->
  let st := run cs (self, w) in
  Z.of_nat (length (history st.1 st.2))
  = Z.of_nat (length (history self w)) + dones cs
    + (trains (trace st.2) - trains (trace w)).
Proof.
  induction cs as [|c cs IH]; intros self w HH Hready; simpl.
  - unfold dones. simpl. lia.
  - destruct (step_ready H self w c HH Hready)
      as (Hr & _ & _ & _ & _ & _ & _ & Hhist & Htr & _).
    destruct (step (self, w) c) as [self1 w1]. simpl in *.
    rewrite (IH self1 w1 HH Hr), Hhist, Htr, !length_app.
    unfold dones. simpl.
    destruct (t_done c), (rollout_full self); simpl; lia.
Qed.

(** C5 as the code has it.  Over a session the length of the history
    grows by the number of requests with [done] plus the number of updates
    performed (counted by the calls of [train], and equally by
    [times_trained]), on top of what the history held when the session
    began.  Every request appends the episode total when it has
    [done] and then the running total when it ends the rollout; whenever
    it appended, the running total it leaves is [0.0], and the entry that
    an update appends after a [done] in the same request is the [0.0] to
    which that [done] had reset the total. *)
Theorem history_length_and_reset (H : Z) (self : CustomPPO) (w : world)
    (cs : list transition) (c : transition) :
  0 < H -> ready H self ->
  let st := run cs (self, w) in
  let st' := step st c in
  let total := radd (current_episode_reward st.1) (t_reward c) in
  Z.of_nat (length (history st.1 st.2))
    = Z.of_nat (length (history self w))
      + dones cs + (trains (trace st.2) - trains (trace w))
  /\ trains (trace st.2) - trains (trace w)
     = times_trained st.1 - times_trained self
  /\ history st'.1 st'.2
     = history st.1 st.2
         ++ (if t_done c then [total] else [])
         ++ (if rollout_full st.1
             then [if t_done c then rzero else total] else [])
  /\ (history st'.1 st'.2 <> history st.1 st.2 ->
      current_episode_reward st'.1 = rzero).
Proof.
  intros HH Hready st st' total.
  pose proof (run_history H cs self w HH Hready) as Hlen.
  destruct (run_occupancy H cs self w HH Hready) as (Hr & _ & Htt & Htr).
  fold st in Hlen, Hr, Htt, Htr.
  destruct (step_ready H st.1 st.2 c HH Hr)
    as (_ & _ & _ & _ & _ & Hcur & _ & Hhist & _).
  replace (st.1, st.2) with st in Hcur, Hhist by (by destruct st).
  fold st' in Hcur, Hhist. fold total in Hcur, Hhist.
  cbv zeta in Hlen.
  split; [lia|]. split; [lia|]. split; [exact Hhist|].
  intros Hne. rewrite Hcur.
  destruct (t_done c), (rollout_full st.1); simpl; try done.
  exfalso. apply Hne. rewrite Hhist. simpl. by rewrite app_nil_r.
Qed.

(** The episode-start flags of the rows handed to the rollout buffer
    during a session, and the buffer as the latest of these rows. *)
Lemma run_episode_start H cs : forall self w,
  0 < H -> ready H self ->
  let st := run cs (self, w) in
  map e_episode_start (added (trace st.2))
  = map e_episode_start (added (trace w))
      ++ take (length cs) (last_done self :: map t_done cs).
Proof.
  induction cs as [|c cs IH]; intros self w HH Hready; simpl.
  - by rewrite app_nil_r.
  - destruct (step_ready H self w c HH Hready)
      as (Hr & _ & Hld & _ & _ & _ & _ & _ & _ & _ & rows & row & _ & Hes & _ & Hadd).
    destruct (step (self, w) c) as [self1 w1]. simpl in *.
    rewrite (IH self1 w1 HH Hr), Hadd, map_app, Hld, <- app_assoc. simpl.
    by rewrite Hes.
Qed.

Lemma run_buffer_suffix H cs : forall self w,
  0 < H -> ready H self ->
  (exists rows, rollout_buffer self = Some rows /\ rows `suffix_of` added (trace w)) ->
  let st := run cs (self, w) in
  exists rows, rollout_buffer st.1 = Some rows /\ rows `suffix_of` added (trace st.2).
Proof.
  induction cs as [|c cs IH]; intros self w HH Hready Hsuf; simpl; [done|].
  destruct (step_ready H self w c HH Hready)
    as (Hr & _ & _ & _ & _ & _ & _ & _ & _ & _ & rows & row & Hbuf & _ & Hbuf' & Hadd).
  destruct (step (self, w) c) as [self1 w1]. simpl in *.
  apply (IH self1 w1 HH Hr).
  destruct Hsuf as (rows0 & Hbuf0 & Hsuf). rewrite Hbuf in Hbuf0.
  injection Hbuf0 as <-.
  eexists. split; [exact Hbuf'|]. rewrite Hadd.
  destruct (rollout_full self).
  - apply suffix_nil.
  - by apply suffix_app.
Qed.

(** C6.  In a session after initialization (empty buffer, previous-done
    flag false) the rows handed to the rollout buffer are one per
    request, the row of the first request has episode-start flag false
    and the row of every later request has the [done] of the request
    before it, whatever its own [done] is; the rollout buffer holds the
    latest of these rows. *)
Theorem episode_start_is_previous_done (H : Z) (self : CustomPPO) (w : world)
    (cs : list transition) :
  0 < H -> n_steps self = H -> is_Some (boss_name self) ->
  rollout_buffer self = Some [] -> last_done self = false ->
  let st := run cs (self, w) in
  let stored := drop (length (added (trace w))) (added (trace st.2)) in
  length stored = length cs
  /\ (forall k row, stored !! k = Some row ->
        e_episode_start row
        = match k with
          | O => false
          | S j => default false (t_done <$> cs !! j)
          end)
  /\ exists rows, rollout_buffer st.1 = Some rows /\ rows `suffix_of` stored.
Proof.
  intros HH Hn Hboss Hbuf Hld st stored.
  assert (Hready : ready H self).
  { split; [done|]. split; [done|]. exists []. split; [done|]. simpl. lia. }
  pose proof (run_episode_start H cs self w HH Hready) as Hflags.
  fold st in Hflags. rewrite Hld in Hflags.
  assert (Hstored : map e_episode_start stored
                    = take (length cs) (false :: map t_done cs)).
  { subst stored.
    change (map e_episode_start (drop ?n ?l)) with (e_episode_start <$> drop n l).
    rewrite fmap_drop.
    change (e_episode_start <$> ?l) with (map e_episode_start l).
    rewrite Hflags.
    rewrite <- (length_map e_episode_start (added (trace w))).
    by rewrite drop_app_length. }
  assert (Hlen : length stored = length cs).
  { rewrite <- (length_map e_episode_start), Hstored, length_take.
    simpl. rewrite length_map. lia. }
  split; [exact Hlen|]. split.
  - intros k row Hk.
    assert (Hk' : map e_episode_start stored !! k = Some (e_episode_start row)).
    { change (map e_episode_start stored) with (e_episode_start <$> stored).
      by rewrite list_lookup_fmap, Hk. }
    rewrite Hstored in Hk'.
    apply lookup_take_Some in Hk' as [Hk' Hlt].
    destruct k as [|j]; simpl in Hk'; [congruence|].
    change (map t_done cs) with (t_done <$> cs) in Hk'.
    rewrite list_lookup_fmap in Hk'. rewrite Hk'. done.
  - destruct (run_buffer_suffix H cs self w HH Hready) as (rows & Hb & Hsuf).
    { exists []. split; [done|]. apply suffix_nil. }
    fold st in Hb, Hsuf. exists rows. split; [done|].
    destruct (run_occupancy H cs self w HH Hready) as (_ & Hpos & _).
    fold st in Hpos. unfold pos in Hpos. rewrite Hb, Hbuf in Hpos. simpl in Hpos.
    assert (Hle : (length rows <= length stored)%nat).
    { rewrite Hlen.
      pose proof (Z.mod_le (Z.of_nat (length cs)) H ltac:(lia) HH).
      change (Z.of_nat 0) with 0 in Hpos. rewrite Z.add_0_l in Hpos. lia. }
    destruct Hsuf as [pre Hpre].
    assert (Hdrop : stored = drop (length (added (trace w))) (pre ++ rows))
      by (subst stored; by rewrite Hpre).
    assert (Htot : length (added (trace st.2))
                   = (length (added (trace w)) + length stored)%nat).
    { subst stored. rewrite length_drop.
      pose proof (f_equal length Hflags) as Hl.
      rewrite length_app, !length_map in Hl. lia. }
    rewrite Hpre, length_app in Htot.
    rewrite drop_app_le in Hdrop by lia.
    rewrite Hdrop. by eexists.
Qed.

(** *** Checkpoints *)

(** The checkpoints of a session are taken by the requests with [done],
    at the count that the request itself reaches; the count that an update
    adds is never looked at. *)
Lemma run_saves H cs : forall self w,
  0 < H -> ready H self ->
  let st := run cs (self, w) in
  save_freq st.1 = save_freq self
  /\ forall n, n ∈ drop (length (saves (trace w))) (saves (trace st.2)) ->
       save_freq self <> 0 /\ n mod save_freq self = 0.
Proof.
  induction cs as [|c cs IH]; intros self w HH Hready; simpl.
  - split; [done|]. intros n. rewrite drop_all. by intros ?%elem_of_nil.
  - destruct (step_ready H self w c HH Hready)
      as (Hr & _ & _ & _ & _ & _ & Hconst & _ & _ & Hsv & _).
    destruct (step (self, w) c) as [self1 w1]. simpl in *.
    injection Hconst as Hsf _ _.
    destruct (IH self1 w1 HH Hr) as [Hsf' Hin].
    split; [congruence|]. intros n Hn.
    assert (Hsplit : exists more, saves (trace (run cs (self1, w1)).2)
                                  = saves (trace w1) ++ more
                                  /\ forall m, m ∈ more ->
                                       save_freq self <> 0 /\ m mod save_freq self = 0).
    { exists (drop (length (saves (trace w1))) (saves (trace (run cs (self1, w1)).2))).
      split.
      - assert (Hpre : saves (trace w1) `prefix_of` saves (trace (run cs (self1, w1)).2)).
        { clear -HH Hr. revert self1 w1 Hr.
          induction cs as [|c' cs IHcs]; intros self1 w1 Hr; simpl; [done|].
          destruct (step_ready H self1 w1 c' HH Hr)
            as (Hr' & _ & _ & _ & _ & _ & _ & _ & _ & Hsv' & _).
          destruct (step (self1, w1) c') as [self2 w2]. simpl in *.
          etrans; [|apply (IHcs self2 w2 Hr')]. rewrite Hsv'. by apply prefix_app_r. }
        destruct Hpre as [more ->]. by rewrite drop_app_length.
      - intros m Hm. rewrite <- Hsf. by apply Hin. }
    destruct Hsplit as (more & Hmore & Hall).
    rewrite Hmore, Hsv, <- app_assoc, drop_app_length in Hn.
    apply elem_of_app in Hn as [Hn|Hn]; [|by apply Hall].
    unfold checkpoint_due in Hn.
    destruct (t_done c); simpl in Hn; [|by apply elem_of_nil in Hn].
    destruct (Z.eqb_spec (save_freq self) 0) as [|Hne]; simpl in Hn;
      [by apply elem_of_nil in Hn|].
    destruct (Z.eqb_spec ((episodes_completed self + 1) mod save_freq self) 0);
      [|by apply elem_of_nil in Hn].
    apply list_elem_of_singleton in Hn as ->. done.
Qed.

(** With interval 0 no checkpoint is ever taken. *)
Lemma run_saves_disabled H cs self w :
  0 < H -> ready H self -> save_freq self = 0 ->
  saves (trace (run cs (self, w)).2) = saves (trace w).
Proof.
  revert self w. induction cs as [|c cs IH]; intros self w HH Hready Hz; simpl; [done|].
  destruct (step_ready H self w c HH Hready)
    as (Hr & _ & _ & _ & _ & _ & Hconst & _ & _ & Hsv & _).
  destruct (step (self, w) c) as [self1 w1]. simpl in *.
  injection Hconst as Hsf _ _.
  rewrite (IH self1 w1 HH Hr) by congruence. rewrite Hsv.
  unfold checkpoint_due. rewrite Hz. simpl. rewrite andb_false_r. by rewrite app_nil_r.
Qed.

(** *** The update at the rollout boundary and the previous-done flag *)

Lemma finish_rollout_and_train_last_done self w next_obs :
  last_done (finish_rollout_and_train self w next_obs).1.1 = last_done self.
Proof. unfold finish_rollout_and_train. by destruct (rollout_buffer self). Qed.

(** C10.  [finish_rollout_and_train] leaves [last_done] as it finds it.
    When a request [c] ends the rollout, the update counts an episode and
    empties the buffer, and the row of the next request [c'] still carries
    the [done] of [c] as its episode-start flag: false when [c] was in the
    middle of an episode. *)
Theorem update_keeps_previous_done (H : Z) (self : CustomPPO) (w : world)
    (c c' : transition) :
  0 < H -> ready H self -> rollout_full self = true ->
  let st1 := step (self, w) c in
  let st2 := step st1 c' in
  (forall next_obs,
     last_done (finish_rollout_and_train st1.1 st1.2 next_obs).1.1 = last_done st1.1)
  /\ times_trained st1.1 = times_trained self + 1
  /\ episodes_completed st1.1
     = episodes_completed self + (if t_done c then 1 else 0) + 1
  /\ rollout_buffer st1.1 = Some []
  /\ last_done st1.1 = t_done c
  /\ exists row,
       added (trace st2.2) = added (trace st1.2) ++ [row]
       /\ e_episode_start row = t_done c
       /\ (1 < H -> rollout_buffer st2.1 = Some [row]).
Proof.
  intros HH Hready Hfull st1 st2.
  destruct (step_ready H self w c HH Hready)
    as (Hr & Hpos & Hld & Htt & Hec & _ & _ & _ & _ & _ & rows & row & _ & _ & Hbuf & _).
  fold st1 in Hr, Hpos, Hld, Htt, Hec, Hbuf. rewrite Hfull in *.
  destruct (step_ready H st1.1 st1.2 c' HH Hr)
    as (_ & _ & _ & _ & _ & _ & _ & _ & _ & _ & rows' & row' & Hb1 & Hes & Hbuf' & Hadd).
  replace (st1.1, st1.2) with st1 in Hbuf', Hadd by (by destruct st1).
  fold st2 in Hbuf', Hadd.
  split; [intros; apply finish_rollout_and_train_last_done|].
  repeat split; try done.
  exists row'. split; [exact Hadd|]. split; [etrans; [exact Hes|exact Hld]|].
  intros H1. rewrite Hbuf'. rewrite Hbuf in Hb1. injection Hb1 as <-.
  unfold rollout_full. rewrite Hpos.
  destruct Hr as (_ & -> & _). simpl.
  destruct (Z.leb_spec H (0 + 1)); [lia|done].
Qed.

(** *** Construction *)

(** C7 as the code has it.  Constructing a [CustomPPO] always clears the
    previous-done flag and the running episode total and empties the rollout
    buffer that the constructor of [PPO] made; the number of updates and of
    episodes are the constructor's arguments (0 when omitted), and when a
    list is passed for the history, the history is that list with whatever
    it holds. *)
Theorem init_sets_counts_from_arguments (pol : Policy) (steps : Z)
    (_init_setup_model : bool) (boss : option string)
    (freq trained completed : option Z) (rewards : loc) (w : world) :
  let self := __init__ pol steps _init_setup_model boss freq trained completed
                (Some rewards) in
  pos self = 0
  /\ rollout_buffer self = (if _init_setup_model then Some [] else None)
  /\ last_done self = false
  /\ current_episode_reward self = rzero
  /\ times_trained self = default 0 trained
  /\ episodes_completed self = default 0 completed
  /\ history self w = contents w rewards.
Proof.
  unfold __init__, PPO__init__, pos, history. simpl.
  destruct _init_setup_model; done.
Qed.

(** *** Further properties of the orchestrator *)

(** The rollouts given to [train], in order. *)
Definition rollouts (tr : list event) : list (list entry) :=
  omap (fun ev => match ev with Train rows _ => Some rows | _ => None end) tr.

Lemma rollouts_app tr1 tr2 : rollouts (tr1 ++ tr2) = rollouts tr1 ++ rollouts tr2.
Proof. unfold rollouts. apply omap_app. Qed.

Lemma step_rollouts H self w c rows :
  0 < H -> ready H self -> rollout_buffer self = Some rows ->
  let st := step (self, w) c in
  exists row,
    added (trace st.2) = added (trace w) ++ [row]
    /\ rollouts (trace st.2)
       = rollouts (trace w) ++ (if rollout_full self then [rows ++ [row]] else [])
    /\ rollout_buffer st.1 = Some (if rollout_full self then [] else rows ++ [row])
    /\ (rollout_full self = true -> Z.of_nat (length (rows ++ [row])) = H).
Proof.
  intros HH (Hboss & Hn & rows0 & Hbuf0 & Hlt) Hbuf st.
  rewrite Hbuf in Hbuf0. injection Hbuf0 as <-.
  destruct Hboss as [boss Hboss].
  destruct (store_transition_ok self w (t_obs c) (t_action c) (t_reward c)
              (t_next_obs c) (t_done c) rows boss Hbuf Hboss)
    as (self' & w' & Heq & Hb' & _ & _ & _ & _ & _ & _ & Htr).
  subst st. rewrite step_eq. simpl. rewrite Heq. simpl.
  eexists. split; [|split; [|split; [exact Hb'|]]].
  - rewrite Htr, !added_app.
    destruct (checkpoint_due _ _), (rollout_full self); simpl; by rewrite ?app_nil_r.
  - rewrite Htr, !rollouts_app.
    destruct (checkpoint_due _ _), (rollout_full self); simpl; by rewrite ?app_nil_r.
  - unfold rollout_full, pos. rewrite Hbuf, Hn. intros Hfull%Z.leb_le.
    rewrite length_app. simpl. lia.
Qed.

(** X1.  Every call of [train] in a session is given exactly [n_steps] rows,
    and the rollouts trained on, followed by what the buffer holds, are the
    rows that the buffer held at the start followed by the rows of the
    requests, in order: no row is trained on twice or dropped. *)
Theorem every_update_trains_on_a_full_rollout (H : Z) (self : CustomPPO)
    (w : world) (cs : list transition) (rows : list entry) :
  0 < H -> ready H self -> rollout_buffer self = Some rows ->
  let st := run cs (self, w) in
  let new_rollouts := drop (length (rollouts (trace w))) (rollouts (trace st.2)) in
  let new_rows := drop (length (added (trace w))) (added (trace st.2)) in
  Forall (fun rollout => Z.of_nat (length rollout) = H) new_rollouts
  /\ exists rows', rollout_buffer st.1 = Some rows'
       /\ concat new_rollouts ++ rows' = rows ++ new_rows.
Proof.
  intros HH Hready Hbuf.
  assert (Hgen : exists rs ads rows',
            rollouts (trace (run cs (self, w)).2) = rollouts (trace w) ++ rs
            /\ added (trace (run cs (self, w)).2) = added (trace w) ++ ads
            /\ rollout_buffer (run cs (self, w)).1 = Some rows'
            /\ Forall (fun rollout => Z.of_nat (length rollout) = H) rs
            /\ concat rs ++ rows' = rows ++ ads).
  { revert self w rows Hready Hbuf.
    induction cs as [|c cs IH]; intros self w rows Hready Hbuf; simpl.
    - exists [], [], rows. rewrite !app_nil_r. by repeat split.
    - destruct (step_rollouts H self w c rows HH Hready Hbuf)
        as (row & Hadd & Hroll & Hbuf' & Hlen).
      destruct (step_ready H self w c HH Hready) as (Hr & _).
      destruct (step (self, w) c) as [self1 w1]. simpl in *.
      destruct (IH self1 w1 _ Hr Hbuf') as (rs & ads & rows' & Hrs & Hads & Hb & Hall & Hcat).
      exists ((if rollout_full self then [rows ++ [row]] else []) ++ rs),
             (row :: ads), rows'.
      rewrite Hrs, Hroll, Hads, Hadd, <- !app_assoc.
      split; [done|]. split; [done|]. split; [done|]. split.
      + apply Forall_app. split; [|done].
        destruct (rollout_full self); [|done]. constructor; [by apply Hlen|done].
      + rewrite concat_app, <- app_assoc, Hcat.
        destruct (rollout_full self); simpl; by rewrite <- ?app_assoc. }
  intros st new_rollouts new_rows.
  destruct Hgen as (rs & ads & rows' & Hrs & Hads & Hb & Hall & Hcat).
  subst new_rollouts new_rows st.
  rewrite Hrs, Hads, !drop_app_length. eauto.
Qed.

(** X2.  The episode counter and the history move together: over any session
    both grow by the number of requests with [done] plus the number of
    updates. *)
Theorem episode_count_follows_history (H : Z) (self : CustomPPO) (w : world)
    (cs : list transition) :
  0 < H -> ready H self ->
  let st := run cs (self, w) in
  episodes_completed st.1 - episodes_completed self
    = dones cs + (times_trained st.1 - times_trained self)
  /\ Z.of_nat (length (history st.1 st.2)) - Z.of_nat (length (history self w))
     = episodes_completed st.1 - episodes_completed self.
Proof.
  intros HH Hready st.
  assert (Hec : episodes_completed st.1 - episodes_completed self
                = dones cs + (times_trained st.1 - times_trained self)).
  { subst st. revert self w Hready.
    induction cs as [|c cs IH]; intros self w Hready; simpl.
    - unfold dones. simpl. lia.
    - destruct (step_ready H self w c HH Hready) as (Hr & _ & _ & Htt & Hec & _).
      destruct (step (self, w) c) as [self1 w1]. simpl in *.
      specialize (IH self1 w1 Hr). unfold dones in *. simpl.
      destruct (t_done c), (rollout_full self); simpl; lia. }
  split; [exact Hec|].
  pose proof (run_history H cs self w HH Hready) as Hlen.
  destruct (run_occupancy H cs self w HH Hready) as (_ & _ & Htt & Htr).
  fold st in Hlen, Htt, Htr. cbv zeta in Hlen. lia.
Qed.

(** With horizon 1 every request is followed by an update: after [N]
    requests the buffer is empty and [N] updates have been performed. *)
Theorem horizon_one_trains_on_every_request (self : CustomPPO) (w : world)
    (cs : list transition) :
  ready 1 self ->
  let st := run cs (self, w) in
  rollout_buffer st.1 = Some []
  /\ times_trained st.1 = times_trained self + Z.of_nat (length cs)
  /\ trains (trace st.2) = trains (trace w) + Z.of_nat (length cs).
Proof.
  intros Hready st.
  pose proof (ready_pos _ _ Hready) as Hp.
  destruct (run_occupancy 1 cs self w ltac:(lia) Hready) as (Hr & Hpos & Htt & Htr).
  fold st in Hr, Hpos, Htt, Htr.
  replace (pos self) with 0 in * by lia.
  rewrite Z.add_0_l, Z.div_1_r in Htt, Htr.
  split; [|done].
  destruct Hr as (_ & _ & rows & Hb & Hlt). rewrite Hb.
  destruct rows; [done|]. simpl in Hlt. lia.
Qed.

(** *** List objects and exceptions *)

(** A call appends to the list that the object refers to and to no other,
    whether it returns or raises, and the object keeps referring to it. *)
Lemma store_transition_lists self w obs action reward next_obs done :
  let res := store_transition self w obs action reward next_obs done in
  episode_rewards res.1.1 = episode_rewards self
  /\ forall l, l <> episode_rewards self -> contents res.1.2 l = contents w l.
Proof.
  destruct self as [ld tt bn sf ec er cur rb ns pol]. run_call.
  destruct done, (sf =? 0), ((ec + 1) mod sf =? 0), bn as [boss|], rb as [rows|];
    simpl; try destruct (ns <=? Z.of_nat (length (_ ++ [_]))); simpl;
    (split; [reflexivity|]); intros other Hother;
    repeat (rewrite contents_emit || rewrite contents_append_ne by done);
    reflexivity.
Qed.

Lemma run_lists cs : forall self w,
  let st := run cs (self, w) in
  episode_rewards st.1 = episode_rewards self
  /\ forall l, l <> episode_rewards self -> contents st.2 l = contents w l.
Proof.
  induction cs as [|c cs IH]; intros self w; simpl; [done|].
  destruct (store_transition_lists self w (t_obs c) (t_action c) (t_reward c)
              (t_next_obs c) (t_done c)) as [Her Hframe].
  rewrite step_eq. simpl.
  destruct (store_transition _ _ _ _ _ _ _) as [[self1 w1] r]. simpl in *.
  destruct (IH self1 w1) as [Her' Hframe'].
  split; [congruence|]. intros l Hl.
  rewrite Hframe' by congruence. by apply Hframe.
Qed.

(** X3.  A session never touches a list other than the history of its model:
    models constructed with different history lists do not see each
    other's episodes. *)
Theorem other_lists_are_untouched (self : CustomPPO) (w : world)
    (cs : list transition) (l : loc) :
  l <> episode_rewards self ->
  contents (run cs (self, w)).2 l = contents w l.
Proof. intros Hl. by apply run_lists. Qed.

(** X4.  Two models constructed with [episode_rewards] omitted refer to the one
    default list of the constructor: what a session of the first appends is
    in the history of the second, whenever the second is constructed. *)
Theorem omitted_history_is_one_list (pol1 pol2 : Policy) (steps1 steps2 : Z)
    (setup2 : bool) (boss1 boss2 : option string)
    (freq1 freq2 trained1 trained2 completed1 completed2 : option Z)
    (w : world) (cs : list transition) :
  0 < steps1 -> is_Some boss1 ->
  let self1 := __init__ pol1 steps1 true boss1 freq1 trained1 completed1 None in
  let self2 := __init__ pol2 steps2 setup2 boss2 freq2 trained2 completed2 None in
  let st := run cs (self1, w) in
  history self2 st.2 = history st.1 st.2
  /\ Z.of_nat (length (history self2 st.2))
     = Z.of_nat (length (history self2 w)) + dones cs
       + (times_trained st.1 - times_trained self1).
Proof.
  intros Hsteps Hboss self1 self2 st.
  assert (Hready : ready steps1 self1).
  { split; [done|]. split; [done|]. exists []. split; [done|]. simpl. lia. }
  pose proof (run_episode_rewards steps1 cs self1 w Hsteps Hready) as Her.
  fold st in Her.
  assert (Hsame : history self2 st.2 = history st.1 st.2).
  { unfold history. rewrite Her. reflexivity. }
  split; [exact Hsame|].
  pose proof (run_history steps1 cs self1 w Hsteps Hready) as Hlen.
  destruct (run_occupancy steps1 cs self1 w Hsteps Hready) as (_ & _ & Htt & Htr).
  fold st in Hlen, Htt, Htr. cbv zeta in Hlen.
  rewrite Hsame. change (history self2 w) with (history self1 w). lia.
Qed.

(** X5.  A request with [done] that is due for a checkpoint on a model without
    boss name raises the [TypeError] of [os.path.join] after the episode has
    been counted and its total appended and reset, and before anything is
    saved or handed to the rollout buffer: what was done is not undone. *)
Theorem checkpoint_without_boss_name_raises (self : CustomPPO) (w : world)
    (obs : Obs) (action : Act) (reward : Rew) (next_obs : Obs) :
  boss_name self = None -> checkpoint_due self true = true ->
  let res := store_transition self w obs action reward next_obs true in
  res.2 = Some (TypeError "join() argument must be str, bytes, or os.PathLike object, not 'NoneType'")
  /\ episodes_completed res.1.1 = episodes_completed self + 1
  /\ history res.1.1 res.1.2
     = history self w ++ [radd (current_episode_reward self) reward]
  /\ current_episode_reward res.1.1 = rzero
  /\ rollout_buffer res.1.1 = rollout_buffer self
  /\ last_done res.1.1 = last_done self
  /\ times_trained res.1.1 = times_trained self
  /\ trace res.1.2 = trace w.
Proof.
  destruct self as [ld tt bn sf ec er cur rb ns pol]. simpl.
  intros -> Hdue. unfold checkpoint_due in Hdue. simpl in Hdue.
  run_call. rewrite Hdue. simpl. rewrite contents_append. done.
Qed.

(** X6.  Every checkpoint of a session is taken at a count that the session
    reached, a multiple of the interval, which is not 0; with counts that
    start at 0 or above these are positive multiples. *)
Theorem checkpoints_lie_at_multiples_of_interval (H : Z) (self : CustomPPO)
    (w : world) (cs : list transition) :
  0 < H -> ready H self ->
  let st := run cs (self, w) in
  episodes_completed self <= episodes_completed st.1
  /\ Forall (fun n => save_freq self <> 0 /\ n mod save_freq self = 0
                      /\ episodes_completed self < n <= episodes_completed st.1)
       (drop (length (saves (trace w))) (saves (trace st.2))).
Proof.
  intros HH Hready.
  assert (Hgen : exists more,
            saves (trace (run cs (self, w)).2) = saves (trace w) ++ more
            /\ episodes_completed self <= episodes_completed (run cs (self, w)).1
            /\ Forall (fun n => save_freq self <> 0 /\ n mod save_freq self = 0
                         /\ episodes_completed self < n
                            <= episodes_completed (run cs (self, w)).1) more).
  { revert self w Hready.
    induction cs as [|c cs IH]; intros self w Hready; simpl.
    - exists []. rewrite app_nil_r. split; [done|]. split; [lia|done].
    - destruct (step_ready H self w c HH Hready)
        as (Hr & _ & _ & _ & Hec & _ & Hconst & _ & _ & Hsv & _).
      destruct (step (self, w) c) as [self1 w1]. simpl in *.
      injection Hconst as Hsf _ _.
      destruct (IH self1 w1 Hr) as (more & Hmore & Hle & Hall).
      assert (Hstep : episodes_completed self
                      + (if checkpoint_due self (t_done c) then 1 else 0)
                      <= episodes_completed self1).
      { rewrite Hec. unfold checkpoint_due.
        destruct (t_done c), (rollout_full self); simpl; try lia;
          destruct (negb _ && _); lia. }
      exists ((if checkpoint_due self (t_done c)
               then [episodes_completed self + 1] else []) ++ more).
      rewrite Hmore, Hsv, <- app_assoc. split; [done|].
      split; [destruct (checkpoint_due _ _); lia|].
      apply Forall_app. split.
      + destruct (checkpoint_due self (t_done c)) eqn:Hdue; [|done].
        constructor; [|done]. unfold checkpoint_due in Hdue.
        apply andb_prop in Hdue as [Hdue Hmod].
        apply andb_prop in Hdue as [_ Hnz].
        apply negb_true_iff, Z.eqb_neq in Hnz. apply Z.eqb_eq in Hmod.
        split; [done|]. split; [done|]. lia.
      + eapply Forall_impl; [exact Hall|]. simpl. intros n (Hnz & Hmod & Hrange).
        rewrite <- Hsf. split; [done|]. split; [done|].
        destruct (checkpoint_due _ _); lia. }
  intros st. destruct Hgen as (more & Hmore & Hle & Hall). subst st.
  split; [exact Hle|]. by rewrite Hmore, drop_app_length.
Qed.

End CustomPPO.

(** ** A concrete session

    Observations and actions are integer vectors, rewards are the floats
    that are whole numbers, and the policy network is represented by the
    number of updates it has received. *)

Definition vec : Type := list Z.

Definition demo_values (p : nat) (o : vec) : unit := tt.
Definition demo_log_prob (p : nat) (o a : vec) : unit := tt.
Definition demo_train (p : nat) (rows : list (@entry vec vec Z unit unit))
  (last_values : unit) : nat := S p.
Definition posix_join (a b : string) : string := (a +:+ "/" +:+ b)%string.

Definition demo_run :=
  run Z.add 0 demo_values demo_log_prob demo_train posix_join.
Definition demo_step :=
  step Z.add 0 demo_values demo_log_prob demo_train posix_join.

Definition request (r : Z) (done : bool) : @transition vec vec Z :=
  {| t_obs := [0]; t_action := [1]; t_reward := r; t_next_obs := [0];
     t_done := done |}.

(** A model for boss "lace" with rollout horizon [steps] and checkpoint
    interval [freq], every other argument of the constructor omitted. *)
Definition demo_model (steps freq : Z) : @CustomPPO vec vec Z unit unit nat :=
  __init__ 0 O steps true (Some "lace"%string) (Some freq) None None None.

Definition demo_world : @world vec vec Z unit unit := imported.

Lemma demo_model_ready steps freq : 0 < steps -> ready steps (demo_model steps freq).
Proof.
  intros Hs. split; [by eexists|]. split; [done|].
  exists []. split; [done|]. simpl. lia.
Qed.

(** C1 on a session of three requests with horizon 3. *)
Lemma rollout_occupancy_and_update_witness :
  pos (demo_run [request 1 false; request 1 false; request 1 false]
         (demo_model 3 0, demo_world)).1 = 0.
Proof.
  pose proof (rollout_occupancy_and_update Z.add 0 demo_values demo_log_prob
                demo_train posix_join 3 (demo_model 3 0) demo_world
                [request 1 false; request 1 false; request 1 false]) as Hthm.
  destruct Hthm as (_ & Hfull & _).
  - lia.
  - reflexivity.
  - by eexists.
  - reflexivity.
  - destruct Hfull as (_ & _ & Hpos & _); [reflexivity|]. exact Hpos.
Defined.

(** The world that a session of one episode with total 5 on a model
    constructed with the history omitted leaves behind. *)
Definition world_after_one_episode : @world vec vec Z unit unit :=
  (demo_run [request 5 true] (demo_model 3 0, demo_world)).2.

(** C5 as stated fails.  A model constructed as [load] constructs it, from
    a checkpoint taken after one episode, has a history of length 1 before
    any request.  A second model constructed with the history omitted,
    after a session of one request with [done] and no update, has a history
    of length 2. *)
Lemma history_is_not_counted_from_initialization :
  (let '(l, w) := new_list [5] world_after_one_episode in
   let self := __init__ 0 (Rew := Z) (Obs := vec) (Act := vec) (Val := unit)
                 (LogP := unit) O 3 false (Some "lace"%string)
                 (Some 1) (Some 0) (Some 1) (Some l) in
   let st := demo_run [] (self, w) in
   Z.of_nat (length (history st.1 st.2)) = 1
   /\ dones ([] : list (@transition vec vec Z)) = 0
   /\ trains (trace st.2) - trains (trace w) = 0)
  /\ (let st := demo_run [request 1 true]
                  (demo_model 3 0, world_after_one_episode) in
      Z.of_nat (length (history st.1 st.2)) = 2
      /\ dones [request 1 true] = 1
      /\ trains (trace st.2) - trains (trace world_after_one_episode) = 0).
Proof. vm_compute. done. Qed.

(** C5 as the code has it, on a second model constructed with the history
    omitted: one entry was there, one request with [done] adds one. *)
Lemma history_length_and_reset_witness :
  let st := demo_run [request 1 true]
              (demo_model 3 0, world_after_one_episode) in
  Z.of_nat (length (history st.1 st.2))
  = Z.of_nat (length (history (demo_model 3 0) world_after_one_episode))
    + dones [request 1 true]
    + (trains (trace st.2) - trains (trace world_after_one_episode)).
Proof.
  pose proof (history_length_and_reset Z.add 0 demo_values demo_log_prob
                demo_train posix_join 3 (demo_model 3 0)
                world_after_one_episode [request 1 true] (request 4 false))
    as Hthm.
  destruct Hthm as (Hlen & _).
  - lia.
  - apply demo_model_ready. lia.
  - exact Hlen.
Defined.

(** C6 on a session of four requests across a rollout boundary. *)
Lemma episode_start_is_previous_done_witness :
  length (drop (length (added (trace demo_world)))
            (added (trace (demo_run [request 1 true; request 1 false;
                                     request 1 true; request 1 true]
                             (demo_model 3 0, demo_world)).2)))
  = 4%nat.
Proof.
  pose proof (episode_start_is_previous_done Z.add 0 demo_values demo_log_prob
                demo_train posix_join 3 (demo_model 3 0) demo_world
                [request 1 true; request 1 false; request 1 true; request 1 true])
    as Hthm.
  destruct Hthm as (Hlen & _).
  - lia.
  - reflexivity.
  - by eexists.
  - reflexivity.
  - reflexivity.
  - exact Hlen.
Defined.

(** C10 with horizon 1: every request ends the rollout. *)
Lemma update_keeps_previous_done_witness :
  episodes_completed (demo_step (demo_model 1 0, demo_world) (request 1 false)).1
  = 0 + 0 + 1.
Proof.
  pose proof (update_keeps_previous_done Z.add 0 demo_values demo_log_prob
                demo_train posix_join 1 (demo_model 1 0) demo_world
                (request 1 false) (request 1 true)) as Hthm.
  destruct Hthm as (_ & _ & Hec & _).
  - lia.
  - apply demo_model_ready. lia.
  - reflexivity.
  - exact Hec.
Defined.

(** C2 on the code: horizon 3, checkpoint interval 2, requests with [done]
    false, false, true.  The third request completes episode 1 and ends the
    rollout; the update then counts episode 2, a positive multiple of the
    interval, and the session has taken no checkpoint. *)
Theorem no_checkpoint_at_count_reached_by_update :
  let st := demo_run [request 1 false; request 1 false; request 1 true]
              (demo_model 3 2, demo_world) in
  episodes_completed st.1 = 2
  /\ times_trained st.1 = 1
  /\ saves (trace st.2) = [].
Proof. vm_compute. done. Qed.

(** The same interval reached by a request with [done] does checkpoint. *)
Lemma checkpoint_at_count_reached_by_done :
  let st := demo_run [request 1 true; request 1 true] (demo_model 3 2, demo_world) in
  episodes_completed st.1 = 2 /\ saves (trace st.2) = [2].
Proof. vm_compute. done. Qed.

(** C7 as stated fails: a model constructed as [load] constructs it, from
    a checkpoint taken after one episode with total 5, starts with that
    count and that history. *)
Lemma init_from_checkpoint_keeps_history :
  let w1 := (demo_run [request 5 true] (demo_model 3 1, demo_world)).2 in
  let '(l, w2) := new_list [5] w1 in
  let self := __init__ 0 (Rew := Z) (Obs := vec) (Act := vec) (Val := unit)
                (LogP := unit) O 3 false (Some "lace"%string)
                (Some 1) (Some 0) (Some 1) (Some l) in
  ~ (episodes_completed self = 0 /\ history self w2 = []).
Proof. vm_compute. intros [? _]. done. Qed.

(** The default list of the constructor is one object: a model constructed
    with the history omitted sees what an earlier such model appended. *)
Lemma default_history_is_shared :
  let w1 := (demo_run [request 5 true] (demo_model 3 0, demo_world)).2 in
  history (demo_model 3 0) w1 = [5].
Proof. vm_compute. done. Qed.

(** ** socket_server_async.py *)

(** [class MessageType(IntEnum)]: the members, their values, and the
    lookup by value, which raises [ValueError] for any other value. *)
Inductive MessageType :=
  | INITIALIZE
  | GET_ACTION
  | STORE_TRANSITION
  | INIT_RESPONSE
  | ACTION_RESPONSE
  | TRANSITION_ACK
  | ERROR.

Definition MessageType_value (t : MessageType) : Z :=
  match t with
  | INITIALIZE => 0
  | GET_ACTION => 1
  | STORE_TRANSITION => 2
  | INIT_RESPONSE => 10
  | ACTION_RESPONSE => 11
  | TRANSITION_ACK => 12
  | ERROR => 255
  end.

Definition MessageType_of_value (v : Z) : option MessageType :=
  if v =? 0 then Some INITIALIZE
  else if v =? 1 then Some GET_ACTION
  else if v =? 2 then Some STORE_TRANSITION
  else if v =? 10 then Some INIT_RESPONSE
  else if v =? 11 then Some ACTION_RESPONSE
  else if v =? 12 then Some TRANSITION_ACK
  else if v =? 255 then Some ERROR
  else None.

(** The members that the server sends and never expects. *)
Definition server_to_client (t : MessageType) : bool :=
  match t with
  | INIT_RESPONSE | ACTION_RESPONSE | TRANSITION_ACK | ERROR => true
  | _ => false
  end.

(** Bytes and their values. *)
Definition byte_value (b : byte) : Z := Z.of_N (Byte.to_N b).

Definition byte_of_value (v : Z) : byte :=
  default Byte.x00 (Byte.of_N (Z.to_N (v mod 256))).

(** [struct.pack('>I', n)], which raises [struct.error] outside
    [0 .. 2^32 - 1], and [struct.unpack('>I', bs)[0]] on four bytes. *)
Definition pack_I (n : Z) : option (list byte) :=
  if (0 <=? n) && (n <? 2 ^ 32)
  then Some [byte_of_value (n / 2 ^ 24); byte_of_value (n / 2 ^ 16);
             byte_of_value (n / 2 ^ 8); byte_of_value n]
  else None.

Definition unpack_I (bs : list byte) : Z :=
  fold_left (fun acc b => acc * 256 + byte_value b) bs 0.

(** [reader.readexactly(n)] on a stream of which [reader] is all that
    will arrive before the peer closes: the [n] bytes and the rest, or
    [IncompleteReadError]. *)
Definition readexactly (n : Z) (reader : list byte) : option (list byte * list byte) :=
  if n <=? Z.of_nat (length reader)
  then Some (take (Z.to_nat n) reader, drop (Z.to_nat n) reader)
  else None.

(** The values of the [json] module: what [json.loads] returns and
    [json.dumps] accepts.  A dict keeps its items in insertion order. *)
Inductive json (float : Type) : Type :=
  | JNull
  | JBool (b : bool)
  | JInt (n : Z)
  | JFloat (x : float)
  | JStr (s : string)
  | JList (items : list (json float))
  | JDict (items : list (string * json float)).

Arguments JNull {float}.
Arguments JBool {float} b.
Arguments JInt {float} n.
Arguments JFloat {float} x.
Arguments JStr {float} s.
Arguments JList {float} items.
Arguments JDict {float} items.

(** [str(e)] of the exceptions that reach [process_message]; the keys that
    the handlers look up print, as every string without a quote does,
    between single quotes. *)
Definition str (e : exn) : string :=
  match e with
  | KeyError key => ("'" +:+ key +:+ "'")%string
  | ValueError msg | TypeError msg | AttributeError msg | RuntimeError msg => msg
  | StructError => "'I' format requires 0 <= number <= 4294967295"
  | JSONDecodeError => "Expecting value"
  | IncompleteReadError => "incomplete read"
  end.

Section AsyncRLSocketServer.

Context {float : Type}.

(** [json.dumps(payload).encode('utf-8')], and [json.loads] of the decoded
    bytes, [None] when the bytes are not UTF-8 or not JSON. *)
Variable dumps : json float -> list byte.
Variable loads : list byte -> option (json float).

(** [rl_core]: the state behind its module-level functions and the three
    functions that the server imports.  Each returns the state it leaves
    and either what it raised or what it returned. *)
Context {core : Type}.
Variable initialize_model :
  json float -> json float -> json float -> json float -> json float ->
  json float -> json float -> core -> core * (exn + json float).
Variable rl_get_action : json float -> core -> core * (exn + json float).
Variable rl_store_transition :
  json float -> json float -> json float -> json float -> json float ->
  core -> core * option exn.

(** [d[key]] and [d.get(key, default)] on a decoded payload. *)
Definition dict_get (items : list (string * json float)) (key : string)
  : option (json float) :=
  snd <$> find (fun kv => bool_decide (fst kv = key)) items.

Definition subscript (payload : json float) (key : string) : exn + json float :=
  match payload with
  | JDict items =>
      match dict_get items key with
      | Some v => inr v
      | None => inl (KeyError key)
      end
  | JList _ => inl (TypeError "list indices must be integers or slices, not str")
  | JStr _ => inl (TypeError "string indices must be integers, not 'str'")
  | JNull => inl (TypeError "'NoneType' object is not subscriptable")
  | JBool _ => inl (TypeError "'bool' object is not subscriptable")
  | JInt _ => inl (TypeError "'int' object is not subscriptable")
  | JFloat _ => inl (TypeError "'float' object is not subscriptable")
  end.

Definition get (payload : json float) (key : string) (dflt : json float)
  : json float :=
  match payload with
  | JDict items => default dflt (dict_get items key)
  | _ => dflt
  end.

(** [receive_message].  It returns the message and what is left of the
    stream, or the exception it raises; it has no path that returns
    [None]. *)
Definition receive_message (reader : list byte)
  : exn + option (MessageType * json float * list byte) :=
  match readexactly 4 reader with
  | None => inl IncompleteReadError
  | Some (length_bytes, reader) =>
      let length := unpack_I length_bytes in
      match readexactly 1 reader with
      | None => inl IncompleteReadError
      | Some (msg_type_byte, reader) =>
          match MessageType_of_value (unpack_I msg_type_byte) with
          | None => inl (ValueError "is not a valid MessageType")
          | Some msg_type =>
              let payload_length := length - 1 in
              if 0 <? payload_length then
                match readexactly payload_length reader with
                | None => inl IncompleteReadError
                | Some (payload_bytes, reader) =>
                    match loads payload_bytes with
                    | None => inl JSONDecodeError
                    | Some payload => inr (Some (msg_type, payload, reader))
                    end
                end
              else inr (Some (msg_type, JDict [], reader))
          end
      end
  end.

(** The bytes of one message, and [send_message], which appends them to
    what the writer has been given. *)
Definition frame (msg_type : MessageType) (payload : json float)
  : option (list byte) :=
  let payload_bytes := dumps payload in
  let length := 1 + Z.of_nat (length payload_bytes) in
  match pack_I length with
  | None => None
  | Some packed =>
      Some (packed ++ [byte_of_value (MessageType_value msg_type)] ++ payload_bytes)
  end.

Definition send_message (writer : list byte) (msg_type : MessageType)
    (payload : json float) : exn + list byte :=
  match frame msg_type payload with
  | None => inl StructError
  | Some full_message => inr (writer ++ full_message)
  end.

(** Sequencing of steps that may raise. *)
Definition and_then {A B : Type} (r : exn + A) (k : A -> exn + B) : exn + B :=
  match r with
  | inl e => inl e
  | inr a => k a
  end.

Notation "'let*' x := r 'in' k" := (and_then r (fun x => k))
  (at level 10, x name, r at level 100, k at level 200).

(** What a handler leaves: the writer, the state of [rl_core], and the
    exception it raised, if any. *)
Definition handled : Type := list byte * core * option exn.

Definition finish (writer : list byte) (c : core) (sent : exn + list byte) : handled :=
  match sent with
  | inl e => (writer, c, Some e)
  | inr writer' => (writer', c, None)
  end.

(** [handle_initialize]. *)
Definition handle_initialize (payload : json float) (writer : list byte)
    (c : core) : handled :=
  match
    (let* boss_name := subscript payload "boss_name" in
     let* obs_size := subscript payload "observation_size" in
     inr (boss_name, obs_size))
  with
  | inl e => (writer, c, Some e)
  | inr (boss_name, obs_size) =>
      let action_space_shape := get payload "action_space_shape" JNull in
      let observation_type := get payload "observation_type" (JStr "vector") in
      let vector_obs_size := get payload "vector_obs_size" obs_size in
      let visual_width := get payload "visual_width" (JInt 0) in
      let visual_height := get payload "visual_height" (JInt 0) in
      let '(c, init_response) :=
        initialize_model obs_size boss_name action_space_shape observation_type
          vector_obs_size visual_width visual_height c in
      finish writer c
        (let* init_response := init_response in
         let* initialized := subscript init_response "initialized" in
         let* boss_name := subscript init_response "boss_name" in
         let* observation_size := subscript init_response "observation_size" in
         let* checkpoint_loaded := subscript init_response "checkpoint_loaded" in
         send_message writer INIT_RESPONSE
           (JDict [("initialized"%string, initialized);
                   ("boss_name"%string, boss_name);
                   ("observation_size"%string, observation_size);
                   ("checkpoint_loaded"%string, checkpoint_loaded)]))
  end.

(** [handle_get_action]. *)
Definition handle_get_action (payload : json float) (writer : list byte)
    (c : core) : handled :=
  match subscript payload "state" with
  | inl e => (writer, c, Some e)
  | inr state =>
      let '(c, action) := rl_get_action state c in
      finish writer c
        (let* action := action in
         send_message writer ACTION_RESPONSE (JDict [("action"%string, action)]))
  end.

(** [handle_store_transition]. *)
Definition handle_store_transition (payload : json float) (writer : list byte)
    (c : core) : handled :=
  match
    (let* state := subscript payload "state" in
     let* action := subscript payload "action" in
     let* reward := subscript payload "reward" in
     let* next_state := subscript payload "next_state" in
     let* done := subscript payload "done" in
     inr (state, action, reward, next_state, done))
  with
  | inl e => (writer, c, Some e)
  | inr (state, action, reward, next_state, done) =>
      match rl_store_transition state action reward next_state done c with
      | (c, Some e) => (writer, c, Some e)
      | (c, None) =>
          finish writer c
            (send_message writer TRANSITION_ACK
               (JDict [("success"%string, JBool true)]))
      end
  end.

(** The [try] block of [process_message]: the handler of the message
    type, none for the types that no branch names. *)
Definition dispatch (msg_type : MessageType) (payload : json float)
    (writer : list byte) (c : core) : handled :=
  match msg_type with
  | INITIALIZE => handle_initialize payload writer c
  | GET_ACTION => handle_get_action payload writer c
  | STORE_TRANSITION => handle_store_transition payload writer c
  | _ => (writer, c, None)
  end.

(** [process_message]: an exception of the handler is answered with an
    ERROR message; an exception of that [send_message] is raised. *)
Definition process_message (msg_type : MessageType) (payload : json float)
    (writer : list byte) (c : core) : handled :=
  match dispatch msg_type payload writer c with
  | (writer, c, None) => (writer, c, None)
  | (writer, c, Some e) =>
      finish writer c
        (send_message writer ERROR (JDict [("error"%string, JStr (str e))]))
  end.

(** How the loop of [handle_client] ends: by the [break], by
    [except asyncio.IncompleteReadError], or by [except Exception]. *)
Inductive ending :=
  | Broke
  | Disconnected
  | Failed (e : exn).

Definition ending_of (e : exn) : ending :=
  match e with
  | IncompleteReadError => Disconnected
  | _ => Failed e
  end.

(** The [while True] loop of [handle_client]; [None] when the fuel does not
    reach the end of the stream. *)
Fixpoint handle_client_loop (fuel : nat) (reader writer : list byte) (c : core)
  : list byte * core * option ending :=
  match fuel with
  | O => (writer, c, None)
  | S fuel =>
      match receive_message reader with
      | inl e => (writer, c, Some (ending_of e))
      | inr None => (writer, c, Some Broke)
      | inr (Some (msg_type, payload, reader)) =>
          match process_message msg_type payload writer c with
          | (writer, c, Some e) => (writer, c, Some (ending_of e))
          | (writer, c, None) => handle_client_loop fuel reader writer c
          end
      end
  end.

(** [handle_client] on a connection that delivers [reader]: what was
    written, the state of [rl_core], how the loop ended, and whether the
    writer was closed. *)
Record served := {
  written : list byte;
  core_after : core;
  ended : option ending;
  closed : bool
}.

Definition handle_client (reader : list byte) (c : core) : served :=
  let '(writer, c, e) := handle_client_loop (S (length reader)) reader [] c in
  {| written := writer; core_after := c; ended := e; closed := true |}.

(** *** Framing *)

Lemma byte_value_of_value v : byte_value (byte_of_value v) = v mod 256.
Proof.
  unfold byte_value, byte_of_value.
  pose proof (Z.mod_pos_bound v 256 ltac:(lia)) as Hb.
  destruct (Byte.of_N (Z.to_N (v mod 256))) as [b|] eqn:Hof.
  - apply Byte.to_of_N in Hof. simpl. rewrite Hof. lia.
  - apply Byte.of_N_None_iff in Hof. lia.
Qed.

Lemma byte_value_bounded b : 0 <= byte_value b < 256.
Proof. unfold byte_value. pose proof (Byte.to_N_bounded b). lia. Qed.

Lemma pack_I_length n bs : pack_I n = Some bs -> length bs = 4%nat.
Proof.
  unfold pack_I. destruct (_ && _); [|done]. by intros [= <-].
Qed.

Lemma unpack_pack_I n bs : pack_I n = Some bs -> unpack_I bs = n.
Proof.
  unfold pack_I.
  destruct (Z.leb_spec 0 n), (Z.ltb_spec n (2 ^ 32)); simpl; try done.
  intros [= <-]. unfold unpack_I. simpl. rewrite !byte_value_of_value.
  change (2 ^ 24) with (256 * 256 * 256). change (2 ^ 16) with (256 * 256).
  change (2 ^ 8) with 256. change (2 ^ 32) with (256 * 256 * 256 * 256) in *.
  rewrite (Z.mod_small (n / (256 * 256 * 256))).
  2:{ split; [apply Z.div_pos; lia|]. apply Z.div_lt_upper_bound; lia. }
  rewrite <- !Z.div_div by lia.
  pose proof (Z.div_mod n 256 ltac:(lia)).
  pose proof (Z.div_mod (n / 256) 256 ltac:(lia)).
  pose proof (Z.div_mod (n / 256 / 256) 256 ltac:(lia)).
  lia.
Qed.

Lemma pack_I_fits n : 0 <= n < 2 ^ 32 -> is_Some (pack_I n).
Proof.
  intros [H0 H1]. unfold pack_I.
  destruct (Z.leb_spec 0 n), (Z.ltb_spec n (2 ^ 32)); simpl; try lia. by eexists.
Qed.

Lemma readexactly_app n bs rest :
  Z.of_nat (length bs) = n -> readexactly n (bs ++ rest) = Some (bs, rest).
Proof.
  intros <-. unfold readexactly. rewrite length_app, Nat2Z.id.
  destruct (Z.leb_spec (Z.of_nat (length bs)) (Z.of_nat (length bs + length rest)));
    [|lia].
  by rewrite take_app_length, drop_app_length.
Qed.

Lemma readexactly_shorter n reader bs rest :
  0 <= n -> readexactly n reader = Some (bs, rest) ->
  reader = bs ++ rest /\ Z.of_nat (length bs) = n.
Proof.
  intros Hn. unfold readexactly.
  destruct (Z.leb_spec n (Z.of_nat (length reader))); [|done].
  intros [= <- <-]. split; [by rewrite take_drop|].
  rewrite length_take. lia.
Qed.

Lemma MessageType_of_value_value t :
  MessageType_of_value (unpack_I [byte_of_value (MessageType_value t)]) = Some t.
Proof. by destruct t. Qed.

(** A message whose JSON text fits the length field has a frame. *)
Lemma frame_fits msg_type payload :
  1 + Z.of_nat (length (dumps payload)) < 2 ^ 32 ->
  is_Some (frame msg_type payload).
Proof.
  intros Hlen. unfold frame.
  destruct (pack_I_fits (1 + Z.of_nat (length (dumps payload)))) as [packed ->];
    [lia|]. by eexists.
Qed.

(** C4.  For every message type and every payload that the [json] module
    takes to a non-empty text and back, the bytes that [send_message] writes
    are a 4-byte big-endian length [L = 1 + len(text)], the tag byte and the
    text, and [receive_message] on these bytes, whatever follows them,
    returns the type and the payload and leaves what follows: it has read
    4, 1 and [L - 1] bytes. *)
Theorem send_receive_round_trip (msg_type : MessageType) (payload : json float)
    (writer full rest : list byte) :
  loads (dumps payload) = Some payload ->
  dumps payload <> [] ->
  send_message writer msg_type payload = inr (writer ++ full) ->
  let L := 1 + Z.of_nat (length (dumps payload)) in
  (exists packed,
     pack_I L = Some packed /\ unpack_I packed = L /\ length packed = 4%nat
     /\ full = packed ++ [byte_of_value (MessageType_value msg_type)]
                 ++ dumps payload)
  /\ Z.of_nat (length full) = 4 + L
  /\ receive_message (full ++ rest) = inr (Some (msg_type, payload, rest)).
Proof.
  intros Hloads Hne Hsend L.
  unfold send_message, frame in Hsend. fold L in Hsend.
  destruct (pack_I L) as [packed|] eqn:Hpack; [|done].
  injection Hsend as Hfull. apply app_inv_head in Hfull. subst full.
  pose proof (pack_I_length _ _ Hpack) as Hlen.
  pose proof (unpack_pack_I _ _ Hpack) as Hunpack.
  split; [by exists packed|]. split.
  { rewrite !length_app, Hlen. simpl. subst L. lia. }
  unfold receive_message.
  rewrite <- !app_assoc.
  rewrite (readexactly_app 4 packed) by (rewrite Hlen; done). cbv beta iota.
  change ((?b :: dumps payload) ++ rest) with ([b] ++ dumps payload ++ rest).
  rewrite (readexactly_app 1 [_]) by done. cbv beta iota.
  rewrite MessageType_of_value_value, Hunpack.
  assert (Hpos : 0 < L - 1).
  { subst L. destruct (dumps payload); [done|]. simpl. lia. }
  destruct (Z.ltb_spec 0 (L - 1)); [|lia].
  rewrite (readexactly_app (L - 1) (dumps payload)) by (subst L; lia).
  cbv beta iota. by rewrite Hloads.
Qed.

(** *** The connection loop *)

(** A received message has taken at least its five bytes of header. *)
Lemma receive_message_consumes reader msg_type payload rest :
  receive_message reader = inr (Some (msg_type, payload, rest)) ->
  (length rest + 5 <= length reader)%nat.
Proof.
  unfold receive_message.
  destruct (readexactly 4 reader) as [[lb r1]|] eqn:H4; [|done].
  apply readexactly_shorter in H4 as [-> Hl4]; [|lia].
  destruct (readexactly 1 r1) as [[tb r2]|] eqn:H1; [|done].
  apply readexactly_shorter in H1 as [-> Hl1]; [|lia].
  destruct (MessageType_of_value _); [|done].
  destruct (Z.ltb_spec 0 (unpack_I lb - 1)).
  - destruct (readexactly _ r2) as [[pb r3]|] eqn:Hp; [|done].
    apply readexactly_shorter in Hp as [-> Hlp]; [|lia].
    destruct (loads pb); [|done]. intros [= _ _ <-].
    rewrite !length_app. lia.
  - intros [= _ _ <-]. rewrite !length_app. lia.
Qed.

(** With fuel beyond the length of the stream the loop reaches its end,
    and more fuel changes nothing. *)
Lemma handle_client_loop_ends fuel : forall reader writer c,
  (length reader < fuel)%nat ->
  exists writer' c' e,
    forall more, handle_client_loop (fuel + more) reader writer c
                 = (writer', c', Some e).
Proof.
  induction fuel as [|fuel IH]; intros reader writer c Hlen; [lia|].
  simpl. destruct (receive_message reader) as [e|[[[t p] rest]|]] eqn:Hrecv.
  - by eexists _, _, _.
  - destruct (process_message t p writer c) as [[w1 c1] [e|]].
    + by eexists _, _, _.
    + apply receive_message_consumes in Hrecv.
      apply (IH rest w1 c1). lia.
  - by eexists _, _, _.
Qed.

Lemma handle_client_loop_fuel fuel fuel' reader writer c :
  (length reader < fuel)%nat -> (length reader < fuel')%nat ->
  handle_client_loop fuel reader writer c = handle_client_loop fuel' reader writer c.
Proof.
  intros H1 H2.
  destruct (handle_client_loop_ends fuel reader writer c H1) as (w1 & c1 & e1 & Ha).
  destruct (handle_client_loop_ends fuel' reader writer c H2) as (w2 & c2 & e2 & Hb).
  pose proof (Ha fuel') as Ha'. pose proof (Hb fuel) as Hb'.
  rewrite (Nat.add_comm fuel' fuel) in Hb'. rewrite Ha' in Hb'.
  specialize (Ha O). specialize (Hb O). rewrite Nat.add_0_r in Ha, Hb.
  congruence.
Qed.

(** [handle_client] always ends its loop and closes the writer. *)
Lemma handle_client_ends reader c :
  is_Some (ended (handle_client reader c)) /\ closed (handle_client reader c) = true.
Proof.
  unfold handle_client.
  destruct (handle_client_loop_ends (S (length reader)) reader [] c ltac:(lia))
    as (w1 & c1 & e1 & Ha).
  specialize (Ha O). rewrite Nat.add_0_r in Ha. rewrite Ha. simpl. eauto.
Qed.

(** A handler that raises has written nothing. *)
Lemma dispatch_raises_unwritten msg_type payload writer c writer' c' e :
  dispatch msg_type payload writer c = (writer', c', Some e) -> writer' = writer.
Proof.
  unfold dispatch, handle_initialize, handle_get_action, handle_store_transition,
    finish.
  destruct msg_type; try done.
  - destruct (and_then _ _) as [?|[? ?]]; [by intros [= <- _ _]|].
    destruct (initialize_model _ _ _ _ _ _ _ _) as [c1 r].
    destruct (and_then _ _); by intros [= <- _ _].
  - destruct (subscript _ _); [by intros [= <- _ _]|].
    destruct (rl_get_action _ _) as [c1 r].
    destruct (and_then _ _); by intros [= <- _ _].
  - destruct (and_then _ _) as [?|[[[[? ?] ?] ?] ?]]; [by intros [= <- _ _]|].
    destruct (rl_store_transition _ _ _ _ _ _) as [c1 [?|]]; [by intros [= <- _ _]|].
    destruct (send_message _ _ _); by intros [= <- _ _].
Qed.

(** C8.  When the handler of a received message raises [e], the server
    writes one ERROR message whose payload is [{'error': str(e)}] (given
    that this text fits a frame) and nothing else, keeps the state that the
    handler left, and goes on with the rest of the stream exactly as the
    loop does from there: the connection stays open and the next message
    is received and processed. *)
Theorem handler_exception_is_answered (msg_type : MessageType)
    (payload : json float) (reader rest writer writer' error_message : list byte)
    (c c' : core) (e : exn) (fuel : nat) :
  receive_message reader = inr (Some (msg_type, payload, rest)) ->
  dispatch msg_type payload writer c = (writer', c', Some e) ->
  frame ERROR (JDict [("error"%string, JStr (str e))]) = Some error_message ->
  process_message msg_type payload writer c = (writer ++ error_message, c', None)
  /\ handle_client_loop (S fuel) reader writer c
     = handle_client_loop fuel rest (writer ++ error_message) c'.
Proof.
  intros Hrecv Hraise Hframe.
  pose proof (dispatch_raises_unwritten _ _ _ _ _ _ _ Hraise) as ->.
  assert (Hproc : process_message msg_type payload writer c
                  = (writer ++ error_message, c', None)).
  { unfold process_message. rewrite Hraise. unfold finish, send_message.
    by rewrite Hframe. }
  split; [exact Hproc|]. simpl. by rewrite Hrecv, Hproc.
Qed.

(** C9.  A received message whose type is one of the four that the server
    sends runs no handler: [process_message] writes nothing, leaves the
    state of [rl_core] alone and raises nothing, and the loop goes on with
    the rest of the stream, so that the connection is served as if the
    message had not been in the stream. *)
Theorem server_to_client_message_is_ignored (msg_type : MessageType)
    (payload : json float) (reader rest writer : list byte) (c : core)
    (fuel : nat) :
  server_to_client msg_type = true ->
  receive_message reader = inr (Some (msg_type, payload, rest)) ->
  process_message msg_type payload writer c = (writer, c, None)
  /\ handle_client_loop (S fuel) reader writer c
     = handle_client_loop fuel rest writer c
  /\ handle_client reader c = handle_client rest c.
Proof.
  intros Htype Hrecv.
  assert (Hproc : process_message msg_type payload writer c = (writer, c, None)).
  { by destruct msg_type. }
  split; [exact Hproc|]. split.
  - simpl. by rewrite Hrecv, Hproc.
  - unfold handle_client.
    assert (Hp0 : process_message msg_type payload [] c = ([], c, None))
      by (by destruct msg_type).
    pose proof (receive_message_consumes _ _ _ _ Hrecv) as Hlen.
    assert (Hstep : handle_client_loop (S (length reader)) reader [] c
                    = handle_client_loop (length reader) rest [] c).
    { simpl. by rewrite Hrecv, Hp0. }
    rewrite Hstep.
    by rewrite (handle_client_loop_fuel (length reader) (S (length rest))
                  rest [] c) by lia.
Qed.

(** What makes [receive_message] raise on a stream that holds a header:
    a tag byte that is no value of [MessageType], or payload bytes that
    [json.loads] rejects. *)
Lemma receive_message_unknown_tag length_bytes tag rest :
  length length_bytes = 4%nat ->
  MessageType_of_value (byte_value tag) = None ->
  receive_message (length_bytes ++ [tag] ++ rest)
  = inl (ValueError "is not a valid MessageType").
Proof.
  intros Hlen Htag. unfold receive_message.
  rewrite (readexactly_app 4 length_bytes) by (rewrite Hlen; done). cbv beta iota.
  rewrite (readexactly_app 1 [tag]) by done. cbv beta iota.
  change (unpack_I [tag]) with (0 * 256 + byte_value tag).
  rewrite Z.mul_0_l, Z.add_0_l. by rewrite Htag.
Qed.

Lemma receive_message_malformed_json length_bytes tag msg_type payload_bytes rest :
  length length_bytes = 4%nat ->
  MessageType_of_value (byte_value tag) = Some msg_type ->
  payload_bytes <> [] ->
  unpack_I length_bytes = 1 + Z.of_nat (length payload_bytes) ->
  loads payload_bytes = None ->
  receive_message (length_bytes ++ [tag] ++ payload_bytes ++ rest)
  = inl JSONDecodeError.
Proof.
  intros Hlen Htag Hne Hunpack Hloads. unfold receive_message.
  rewrite (readexactly_app 4 length_bytes) by (rewrite Hlen; done). cbv beta iota.
  rewrite (readexactly_app 1 [tag]) by done. cbv beta iota.
  change (unpack_I [tag]) with (0 * 256 + byte_value tag).
  rewrite Z.mul_0_l, Z.add_0_l, Htag, Hunpack.
  destruct (Z.ltb_spec 0 (1 + Z.of_nat (length payload_bytes) - 1)).
  - rewrite (readexactly_app _ payload_bytes) by lia. cbv beta iota.
    by rewrite Hloads.
  - destruct payload_bytes; [done|]. simpl in *. lia.
Qed.

(** C3 as the code has it.  On a message whose tag byte is no value of
    [MessageType], or whose payload bytes [json.loads] rejects,
    [receive_message] raises in the loop of [handle_client], outside
    [process_message]: nothing is written for the message, neither an ERROR
    message nor an acknowledgement, the state of [rl_core] is as it was, the
    loop ends by [except Exception] without reading what follows, and the
    writer is closed. *)
Theorem decode_error_ends_connection (length_bytes rest writer : list byte)
    (tag : byte) (c : core) (fuel : nat) :
  length length_bytes = 4%nat ->
  (MessageType_of_value (byte_value tag) = None
   \/ exists payload_bytes rest',
        rest = payload_bytes ++ rest' /\ payload_bytes <> []
        /\ is_Some (MessageType_of_value (byte_value tag))
        /\ unpack_I length_bytes = 1 + Z.of_nat (length payload_bytes)
        /\ loads payload_bytes = None) ->
  let reader := length_bytes ++ [tag] ++ rest in
  exists e,
    receive_message reader = inl e
    /\ handle_client_loop (S fuel) reader writer c = (writer, c, Some (Failed e))
    /\ handle_client reader c
       = {| written := []; core_after := c; ended := Some (Failed e);
            closed := true |}.
Proof.
  intros Hlen Hbad reader.
  assert (Hrecv : exists e, receive_message reader = inl e
                            /\ ending_of e = Failed e).
  { destruct Hbad as [Htag|(pb & rest' & -> & Hne & [t Ht] & Hunpack & Hloads)].
    - eexists. split; [by apply receive_message_unknown_tag|done].
    - eexists. split; [by eapply receive_message_malformed_json|done]. }
  destruct Hrecv as (e & Hrecv & Hend). exists e.
  split; [exact Hrecv|]. split.
  - simpl. by rewrite Hrecv, Hend.
  - unfold handle_client. simpl. by rewrite Hrecv, Hend.
Qed.

(** *** Further properties of the connection *)

(** X8.  A stream that ends inside a message, the empty stream included, makes
    [receive_message] raise [IncompleteReadError] at the read that runs
    short: inside the header, or inside the payload of a message with a
    known tag.  The loop then ends by the clause for that exception: nothing
    is written, the state of [rl_core] is as it was, the writer is
    closed. *)
Theorem short_stream_disconnects (reader writer : list byte) (c : core)
    (fuel : nat) :
  ((length reader < 5)%nat
   \/ exists length_bytes tag rest,
        reader = length_bytes ++ [tag] ++ rest /\ length length_bytes = 4%nat
        /\ is_Some (MessageType_of_value (byte_value tag))
        /\ Z.of_nat (length rest) < unpack_I length_bytes - 1) ->
  receive_message reader = inl IncompleteReadError
  /\ handle_client_loop (S fuel) reader writer c = (writer, c, Some Disconnected)
  /\ handle_client reader c
     = {| written := []; core_after := c; ended := Some Disconnected;
          closed := true |}.
Proof.
  intros Hshort.
  assert (Hrecv : receive_message reader = inl IncompleteReadError).
  { unfold receive_message.
    destruct Hshort as [Hlen|(lb & tag & rest & -> & Hlb & [t Ht] & Hrest)].
    - destruct (readexactly 4 reader) as [[lb r1]|] eqn:H4; [|done].
      apply readexactly_shorter in H4 as [-> Hl4]; [|lia].
      destruct (readexactly 1 r1) as [[tb r2]|] eqn:H1; [|done].
      apply readexactly_shorter in H1 as [-> Hl1]; [|lia].
      rewrite !length_app in Hlen. lia.
    - rewrite (readexactly_app 4 lb) by (rewrite Hlb; done). cbv beta iota.
      rewrite (readexactly_app 1 [tag]) by done. cbv beta iota.
      change (unpack_I [tag]) with (0 * 256 + byte_value tag).
      rewrite Z.mul_0_l, Z.add_0_l, Ht.
      destruct (Z.ltb_spec 0 (unpack_I lb - 1)); [|lia].
      unfold readexactly.
      destruct (Z.leb_spec (unpack_I lb - 1) (Z.of_nat (length rest))); [lia|done]. }
  split; [exact Hrecv|]. split.
  - simpl. by rewrite Hrecv.
  - unfold handle_client. simpl. by rewrite Hrecv.
Qed.

(** X9.  A message whose length field is 0 or 1 has no payload bytes: it is
    received with the empty dict as payload without [json.loads] being
    called, and exactly its five header bytes are taken from the stream. *)
Theorem empty_payload_is_empty_dict (length_bytes rest : list byte) (tag : byte)
    (msg_type : MessageType) :
  length length_bytes = 4%nat ->
  unpack_I length_bytes <= 1 ->
  MessageType_of_value (byte_value tag) = Some msg_type ->
  receive_message (length_bytes ++ [tag] ++ rest)
  = inr (Some (msg_type, JDict [], rest)).
Proof.
  intros Hlen Hle Htag. unfold receive_message.
  rewrite (readexactly_app 4 length_bytes) by (rewrite Hlen; done). cbv beta iota.
  rewrite (readexactly_app 1 [tag]) by done. cbv beta iota.
  change (unpack_I [tag]) with (0 * 256 + byte_value tag).
  rewrite Z.mul_0_l, Z.add_0_l, Htag.
  by destruct (Z.ltb_spec 0 (unpack_I length_bytes - 1)); [lia|].
Qed.

(** The loop ends only by an exception. *)
Lemma handle_client_loop_ending fuel : forall reader writer c writer' c' x,
  handle_client_loop fuel reader writer c = (writer', c', Some x) ->
  exists e, x = ending_of e.
Proof.
  induction fuel as [|fuel IH]; intros reader writer c writer' c' x; simpl; [done|].
  destruct (receive_message reader) as [e|[[[t p] rest]|]] eqn:Hrecv.
  - intros [= _ _ <-]. by eexists.
  - destruct (process_message t p writer c) as [[w1 c1] [e|]].
    + intros [= _ _ <-]. by eexists.
    + apply IH.
  - unfold receive_message in Hrecv.
    destruct (readexactly 4 reader) as [[lb r1]|]; [|done].
    destruct (readexactly 1 r1) as [[tb r2]|]; [|done].
    destruct (MessageType_of_value _); [|done].
    destruct (0 <? _); [|done].
    destruct (readexactly _ r2) as [[pb r3]|]; [|done].
    by destruct (loads pb).
Qed.

(** X10.  On every stream [handle_client] comes to an end and closes the writer,
    and the end is never the [break] of the loop: [receive_message] has no
    result [None], so a connection ends by [IncompleteReadError] (the peer
    closed) or by another exception. *)
Theorem handle_client_never_breaks (reader : list byte) (c : core) :
  closed (handle_client reader c) = true
  /\ (ended (handle_client reader c) = Some Disconnected
      \/ exists e, e <> IncompleteReadError
           /\ ended (handle_client reader c) = Some (Failed e)).
Proof.
  destruct (handle_client_ends reader c) as [[x Hx] Hclosed].
  split; [exact Hclosed|].
  unfold handle_client in *.
  destruct (handle_client_loop _ reader [] c) as [[w1 c1] e1] eqn:Hloop.
  cbn [ended] in Hx |- *. subst e1.
  apply handle_client_loop_ending in Hloop as [e ->].
  destruct e; simpl; [by left|..]; right; (eexists; split; [|reflexivity]); done.
Qed.

(** The type of the response to a request. *)
Definition response_type (msg_type : MessageType) : MessageType :=
  match msg_type with
  | INITIALIZE => INIT_RESPONSE
  | GET_ACTION => ACTION_RESPONSE
  | STORE_TRANSITION => TRANSITION_ACK
  | _ => ERROR
  end.

Lemma finish_sent writer c sent writer' c' r :
  finish writer c sent = (writer', c', r) ->
  c' = c /\ match r with
            | None => sent = inr writer'
            | Some e => sent = inl e /\ writer' = writer
            end.
Proof. unfold finish. destruct sent; intros [= <- <- <-]; done. Qed.

Lemma and_then_inr {A B : Type} (r : exn + A) (k : A -> exn + B) (b : B) :
  and_then r k = inr b -> exists a, r = inr a /\ k a = inr b.
Proof. destruct r; [done|]. simpl. eauto. Qed.

Lemma send_message_inr writer msg_type payload writer' :
  send_message writer msg_type payload = inr writer' ->
  exists full, frame msg_type payload = Some full /\ writer' = writer ++ full.
Proof.
  unfold send_message. destruct (frame _ _) as [full|]; [|done].
  intros [= <-]. eauto.
Qed.

(** A handler that returns has written exactly one message, of the
    response type of the request. *)
Lemma dispatch_returns msg_type payload writer c writer' c' :
  server_to_client msg_type = false ->
  dispatch msg_type payload writer c = (writer', c', None) ->
  exists response full,
    frame (response_type msg_type) response = Some full
    /\ writer' = writer ++ full.
Proof.
  intros Htype.
  unfold dispatch, handle_initialize, handle_get_action, handle_store_transition.
  destruct msg_type; try done; simpl.
  - destruct (and_then _ _) as [?|[? ?]]; [done|].
    destruct (initialize_model _ _ _ _ _ _ _ _) as [c1 r].
    intros [_ Hsent]%finish_sent.
    apply and_then_inr in Hsent as (? & _ & Hsent).
    apply and_then_inr in Hsent as (? & _ & Hsent).
    apply and_then_inr in Hsent as (? & _ & Hsent).
    apply and_then_inr in Hsent as (? & _ & Hsent).
    apply and_then_inr in Hsent as (? & _ & Hsent).
    apply send_message_inr in Hsent as (full & ? & ?). eauto.
  - destruct (subscript _ _); [done|].
    destruct (rl_get_action _ _) as [c1 r].
    intros [_ Hsent]%finish_sent.
    apply and_then_inr in Hsent as (? & _ & Hsent).
    apply send_message_inr in Hsent as (full & ? & ?). eauto.
  - destruct (and_then _ _) as [?|[[[[? ?] ?] ?] ?]]; [done|].
    destruct (rl_store_transition _ _ _ _ _ _) as [c1 [?|]]; [done|].
    intros [_ Hsent]%finish_sent.
    apply send_message_inr in Hsent as (full & ? & ?). eauto.
Qed.

(** X11.  For one message the server writes nothing or exactly one message, and
    what it writes is the response of the request's type or an ERROR, never
    a message of a client type.  If [process_message] itself raises, it is
    the [struct.error] of an ERROR message too long to send, and nothing was
    written. *)
Theorem process_message_writes_at_most_one_response (msg_type : MessageType)
    (payload : json float) (writer writer' : list byte) (c c' : core)
    (r : option exn) :
  process_message msg_type payload writer c = (writer', c', r) ->
  (writer' = writer
   \/ exists response_t response full,
        (response_t = response_type msg_type \/ response_t = ERROR)
        /\ server_to_client response_t = true
        /\ frame response_t response = Some full
        /\ writer' = writer ++ full)
  /\ (forall e, r = Some e -> e = StructError /\ writer' = writer).
Proof.
  unfold process_message.
  destruct (dispatch msg_type payload writer c) as [[w1 c1] [e|]] eqn:Hd.
  - pose proof (dispatch_raises_unwritten _ _ _ _ _ _ _ Hd) as ->.
    intros [_ Hsent]%finish_sent. destruct r as [e'|].
    + destruct Hsent as [Hsent ->]. split; [by left|].
      intros ? [= <-]. split; [|done].
      unfold send_message in Hsent. by destruct (frame _ _); [|injection Hsent as <-].
    + apply send_message_inr in Hsent as (full & Hframe & ->).
      split; [|done]. right. exists ERROR. eauto 10.
  - intros [= <- <- <-]. split; [|done].
    destruct (server_to_client msg_type) eqn:Htype.
    + left. destruct msg_type; try done; simpl in Hd; by injection Hd as <- _.
    + right. destruct (dispatch_returns _ _ _ _ _ _ Htype Hd) as (resp & full & ? & ?).
      exists (response_type msg_type), resp, full.
      split; [by left|]. split; [by destruct msg_type|]. done.
Qed.

(** The first of [keys] that a dict does not have. *)
Definition first_missing (keys : list string) (items : list (string * json float))
  : option string :=
  find (fun key => bool_decide (dict_get items key = None)) keys.

(** X12.  A STORE_TRANSITION whose payload lacks one of its five keys never
    reaches [rl_core]: the state is untouched and the answer is the ERROR
    message that names the first missing key, in the order state, action,
    reward, next_state, done. *)
Theorem store_transition_with_missing_key (items : list (string * json float))
    (key : string) (writer error_message : list byte) (c : core) :
  first_missing ["state"; "action"; "reward"; "next_state"; "done"]%string items
    = Some key ->
  frame ERROR (JDict [("error"%string, JStr ("'" +:+ key +:+ "'"))])
    = Some error_message ->
  process_message STORE_TRANSITION (JDict items) writer c
  = (writer ++ error_message, c, None).
Proof.
  intros Hmiss Hframe.
  assert (Hd : dispatch STORE_TRANSITION (JDict items) writer c
               = (writer, c, Some (KeyError key))).
  { unfold dispatch, handle_store_transition, first_missing in *.
    cbn [find] in Hmiss. unfold subscript.
    destruct (dict_get items "state"); simpl in Hmiss |- *;
      [|by injection Hmiss as <-].
    destruct (dict_get items "action"); simpl in Hmiss |- *;
      [|by injection Hmiss as <-].
    destruct (dict_get items "reward"); simpl in Hmiss |- *;
      [|by injection Hmiss as <-].
    destruct (dict_get items "next_state"); simpl in Hmiss |- *;
      [|by injection Hmiss as <-].
    destruct (dict_get items "done"); simpl in Hmiss |- *;
      [done|by injection Hmiss as <-]. }
  unfold process_message. rewrite Hd. unfold finish, send_message. simpl.
  by rewrite Hframe.
Qed.

(** X13.  A request whose payload is not a dict (a list, a string, a number,
    [true], [false] or [null]) is answered with the ERROR message of the
    [TypeError] of its first subscript, whatever its type, and [rl_core] is
    not reached. *)
Theorem payload_that_is_no_dict (msg_type : MessageType) (payload : json float)
    (writer : list byte) (c : core) :
  server_to_client msg_type = false ->
  (forall items, payload <> JDict items) ->
  exists msg,
    (forall key, subscript payload key = inl (TypeError msg))
    /\ forall error_message,
         frame ERROR (JDict [("error"%string, JStr msg)]) = Some error_message ->
         process_message msg_type payload writer c
         = (writer ++ error_message, c, None).
Proof.
  intros Htype Hnodict.
  assert (Hsub : exists msg, forall key, subscript payload key = inl (TypeError msg)).
  { destruct payload; simpl; eauto. by destruct (Hnodict items). }
  destruct Hsub as [msg Hsub]. exists msg. split; [exact Hsub|].
  intros error_message Hframe.
  assert (Hd : dispatch msg_type payload writer c = (writer, c, Some (TypeError msg))).
  { unfold dispatch, handle_initialize, handle_get_action, handle_store_transition.
    destruct msg_type; try done; by rewrite Hsub. }
  unfold process_message. rewrite Hd. unfold finish, send_message. simpl.
  by rewrite Hframe.
Qed.

(** X14.  A STORE_TRANSITION with its five keys calls [rl_store_transition] with
    their values.  The acknowledgement is written when the call returns and
    only then; when the call raises, the ERROR message is written instead;
    either way the state that the call left is kept. *)
Theorem acknowledgement_follows_the_call (payload state action reward next_state
    done : json float) (writer : list byte) (c c' : core) (raised : option exn)
    (answer : list byte) :
  subscript payload "state" = inr state ->
  subscript payload "action" = inr action ->
  subscript payload "reward" = inr reward ->
  subscript payload "next_state" = inr next_state ->
  subscript payload "done" = inr done ->
  rl_store_transition state action reward next_state done c = (c', raised) ->
  frame (match raised with Some _ => ERROR | None => TRANSITION_ACK end)
    (match raised with
     | Some e => JDict [("error"%string, JStr (str e))]
     | None => JDict [("success"%string, JBool true)]
     end) = Some answer ->
  process_message STORE_TRANSITION payload writer c = (writer ++ answer, c', None).
Proof.
  intros H1 H2 H3 H4 H5 Hcall Hframe.
  unfold process_message, dispatch, handle_store_transition.
  rewrite H1, H2, H3, H4, H5. simpl. rewrite Hcall.
  destruct raised as [e|]; unfold finish, send_message; by rewrite Hframe.
Qed.

(** X15.  [send_message] fails only by the size of the payload: a text of at
    most [2^32 - 2] bytes is sent as [5 + len] bytes after what was written
    before, a longer one raises [struct.error] and writes nothing. *)
Theorem send_message_bound (writer : list byte) (msg_type : MessageType)
    (payload : json float) :
  let len := Z.of_nat (length (dumps payload)) in
  match send_message writer msg_type payload with
  | inr writer' =>
      len <= 2 ^ 32 - 2
      /\ exists full, writer' = writer ++ full /\ Z.of_nat (length full) = 5 + len
  | inl e => e = StructError /\ 2 ^ 32 - 2 < len
  end.
Proof.
  intros len. unfold send_message, frame. fold len.
  destruct (pack_I (1 + len)) as [packed|] eqn:Hpack.
  - pose proof (pack_I_length _ _ Hpack) as Hlen.
    unfold pack_I in Hpack.
    destruct (Z.leb_spec 0 (1 + len)), (Z.ltb_spec (1 + len) (2 ^ 32)); try done.
    split; [lia|]. eexists. split; [done|].
    rewrite !length_app, Hlen. simpl. subst len. lia.
  - split; [done|]. unfold pack_I in Hpack.
    destruct (Z.leb_spec 0 (1 + len)), (Z.ltb_spec (1 + len) (2 ^ 32)); try done;
      subst len; lia.
Qed.

End AsyncRLSocketServer.

(** ** A reference codec

    The [json] module is not part of the repository; the server is proved
    for any [dumps] and [loads].  To run the server on concrete streams,
    here are the module's text format and parser for the values without
    floats whose strings are printable ASCII, and for the texts of such
    values without [\u] escapes. *)

Definition jvalue : Type := json Empty_set.

Definition ascii_bytes (s : string) : list byte := String.list_byte_of_string s.

Definition dumps_string (s : string) : list byte :=
  [x22]
    ++ flat_map (fun b => if Byte.eqb b x22 then [x5c; x22]
                          else if Byte.eqb b x5c then [x5c; x5c]
                          else [b]) (ascii_bytes s)
    ++ [x22].

Fixpoint reference_dumps (v : jvalue) : list byte :=
  match v with
  | JNull => ascii_bytes "null"
  | JBool b => ascii_bytes (if b then "true" else "false")
  | JInt n => ascii_bytes (DecimalString.NilZero.string_of_int (Z.to_int n))
  | JFloat x => match x with end
  | JStr s => dumps_string s
  | JList items =>
      [x5b]
        ++ (fix go (items : list jvalue) : list byte :=
              match items with
              | [] => []
              | v :: rest =>
                  match rest with
                  | [] => reference_dumps v
                  | _ :: _ => reference_dumps v ++ ascii_bytes ", " ++ go rest
                  end
              end) items
        ++ [x5d]
  | JDict items =>
      [x7b]
        ++ (fix go (items : list (string * jvalue)) : list byte :=
              match items with
              | [] => []
              | (k, v) :: rest =>
                  match rest with
                  | [] => dumps_string k ++ ascii_bytes ": " ++ reference_dumps v
                  | _ :: _ =>
                      dumps_string k ++ ascii_bytes ": " ++ reference_dumps v
                        ++ ascii_bytes ", " ++ go rest
                  end
              end) items
        ++ [x7d]
  end.

Definition is_space (b : byte) : bool :=
  Byte.eqb b x20 || Byte.eqb b x0a || Byte.eqb b x0d || Byte.eqb b x09.

Definition is_digit (b : byte) : bool :=
  (48 <=? byte_value b) && (byte_value b <=? 57).

Fixpoint skip_space (bs : list byte) : list byte :=
  match bs with
  | b :: rest => if is_space b then skip_space rest else bs
  | [] => []
  end.

Fixpoint strip_prefix (p bs : list byte) : option (list byte) :=
  match p, bs with
  | [], _ => Some bs
  | a :: p, b :: bs => if Byte.eqb a b then strip_prefix p bs else None
  | _ :: _, [] => None
  end.

Fixpoint span_digits (bs : list byte) : list byte * list byte :=
  match bs with
  | b :: rest =>
      if is_digit b
      then let '(ds, rest) := span_digits rest in (b :: ds, rest)
      else ([], bs)
  | [] => ([], [])
  end.

Definition unescape (b : byte) : option byte :=
  if Byte.eqb b x22 then Some x22
  else if Byte.eqb b x5c then Some x5c
  else if Byte.eqb b x2f then Some x2f
  else if Byte.eqb b x62 then Some x08
  else if Byte.eqb b x66 then Some x0c
  else if Byte.eqb b x6e then Some x0a
  else if Byte.eqb b x72 then Some x0d
  else if Byte.eqb b x74 then Some x09
  else None.

(** The body of a string, after its opening quote. *)
Fixpoint loads_string (bs acc : list byte) : option (string * list byte) :=
  match bs with
  | [] => None
  | b :: rest =>
      if Byte.eqb b x22 then Some (String.string_of_list_byte (rev acc), rest)
      else if Byte.eqb b x5c then
        match rest with
        | e :: rest =>
            match unescape e with
            | Some c => loads_string rest (c :: acc)
            | None => None
            end
        | [] => None
        end
      else if byte_value b <? 32 then None
      else loads_string rest (b :: acc)
  end.

(** An integer: an optional minus and digits without a leading zero;
    a fraction or an exponent would make it a float. *)
Definition loads_int (bs : list byte) : option (jvalue * list byte) :=
  let '(sign, body) :=
    match bs with
    | b :: rest => if Byte.eqb b x2d then ([x2d], rest) else ([], bs)
    | [] => ([], [])
    end in
  let '(ds, rest) := span_digits body in
  let leading_zero :=
    match ds with
    | d :: _ :: _ => Byte.eqb d x30
    | _ => false
    end in
  let float_follows :=
    match rest with
    | b :: _ => Byte.eqb b x2e || Byte.eqb b x65 || Byte.eqb b x45
    | [] => false
    end in
  if leading_zero || float_follows then None
  else
    match DecimalString.NilZero.int_of_string
            (String.string_of_list_byte (sign ++ ds)) with
    | Some n => Some (JInt (Z.of_int n), rest)
    | None => None
    end.

(** [d[k] = v] on the items of a dict. *)
Fixpoint dict_set (items : list (string * jvalue)) (k : string) (v : jvalue)
  : list (string * jvalue) :=
  match items with
  | [] => [(k, v)]
  | (k', v') :: rest =>
      if bool_decide (k' = k) then (k, v) :: rest
      else (k', v') :: dict_set rest k v
  end.

(** The items of a list after the first byte of an item, and the members
    of a dict after the quote of a key; [value] parses one value. *)
Fixpoint loads_items (value : list byte -> option (jvalue * list byte))
    (n : nat) (bs : list byte) (acc : list jvalue)
  : option (jvalue * list byte) :=
  match n with
  | O => None
  | S n =>
      match value bs with
      | None => None
      | Some (v, rest) =>
          match skip_space rest with
          | b :: rest =>
              if Byte.eqb b x5d then Some (JList (rev (v :: acc)), rest)
              else if Byte.eqb b x2c
              then loads_items value n (skip_space rest) (v :: acc)
              else None
          | [] => None
          end
      end
  end.

Fixpoint loads_members (value : list byte -> option (jvalue * list byte))
    (n : nat) (bs : list byte) (acc : list (string * jvalue))
  : option (jvalue * list byte) :=
  match n with
  | O => None
  | S n =>
      match bs with
      | q :: rest =>
          if Byte.eqb q x22 then
            match loads_string rest [] with
            | None => None
            | Some (k, rest) =>
                match skip_space rest with
                | colon :: rest =>
                    if Byte.eqb colon x3a then
                      match value rest with
                      | None => None
                      | Some (v, rest) =>
                          match skip_space rest with
                          | b :: rest =>
                              if Byte.eqb b x7d
                              then Some (JDict (dict_set acc k v), rest)
                              else if Byte.eqb b x2c
                              then loads_members value n (skip_space rest)
                                     (dict_set acc k v)
                              else None
                          | [] => None
                          end
                      end
                    else None
                | [] => None
                end
            end
          else None
      | [] => None
      end
  end.

Fixpoint loads_value (fuel : nat) (bs : list byte) : option (jvalue * list byte) :=
  match fuel with
  | O => None
  | S fuel =>
      match skip_space bs with
      | [] => None
      | b :: rest =>
          if Byte.eqb b x22 then
            match loads_string rest [] with
            | Some (s, rest) => Some (JStr s, rest)
            | None => None
            end
          else if Byte.eqb b x5b then
            match skip_space rest with
            | c :: rest' =>
                if Byte.eqb c x5d then Some (JList [], rest')
                else loads_items (loads_value fuel) (length rest) (c :: rest') []
            | [] => None
            end
          else if Byte.eqb b x7b then
            match skip_space rest with
            | c :: rest' =>
                if Byte.eqb c x7d then Some (JDict [], rest')
                else loads_members (loads_value fuel) (length rest) (c :: rest') []
            | [] => None
            end
          else
            match strip_prefix (ascii_bytes "null") (b :: rest),
                  strip_prefix (ascii_bytes "true") (b :: rest),
                  strip_prefix (ascii_bytes "false") (b :: rest) with
            | Some rest, _, _ => Some (JNull, rest)
            | _, Some rest, _ => Some (JBool true, rest)
            | _, _, Some rest => Some (JBool false, rest)
            | None, None, None => loads_int (b :: rest)
            end
      end
  end.

Definition reference_loads (bs : list byte) : option jvalue :=
  match loads_value (S (length bs)) bs with
  | Some (v, rest) =>
      match skip_space rest with
      | [] => Some v
      | _ :: _ => None
      end
  | None => None
  end.

(** ** rl_core *)

(** The state behind [rl_core]: the world of the orchestrator and the
    model of the session, [None] before the first INITIALIZE. *)
Record rl_core_state := {
  rl_world : @world vec vec Z unit unit;
  rl_model : option (@CustomPPO vec vec Z unit unit nat);
  rl_observation_size : Z
}.

Definition vector_of (v : jvalue) : option vec :=
  match v with
  | JList items =>
      mapM (fun x => match x with JInt n => Some n | _ => None end) items
  | _ => None
  end.

(** Modelled from the spec: [rl_core.initialize_model], which is not among
    the sources.  It validates that the sizes are positive, creates the
    session with rollout horizon [horizon] and checkpoint interval
    [interval], an empty rollout buffer and zero statistics, and returns
    [initialized], the boss name, the observation size and
    [checkpoint_loaded]; no persisted checkpoint exists in this model. *)
Definition spec_initialize_model (horizon interval : Z)
    (obs_size boss_name action_space_shape observation_type vector_obs_size
       visual_w visual_h : jvalue) (st : rl_core_state)
  : rl_core_state * (exn + jvalue) :=
  match obs_size, boss_name with
  | JInt n, JStr boss =>
      if 0 <? n then
        let '(rewards, w) := new_list [] (rl_world st) in
        let model :=
          __init__ 0 O horizon true (Some boss) (Some interval) None None
            (Some rewards) in
        ({| rl_world := w; rl_model := Some model; rl_observation_size := n |},
         inr (JDict [("initialized"%string, JBool true);
                     ("boss_name"%string, JStr boss);
                     ("observation_size"%string, JInt n);
                     ("checkpoint_loaded"%string, JBool false)]))
      else (st, inl (ValueError "observation size must be positive"))
  | _, _ => (st, inl (TypeError "observation size and boss name expected"))
  end.

(** Modelled from the spec: [rl_core.get_action], which is not among the
    sources.  It fails before INITIALIZE; otherwise it returns the action
    of the policy, here the zero action, and changes nothing. *)
Definition spec_get_action (state : jvalue) (st : rl_core_state)
  : rl_core_state * (exn + jvalue) :=
  match rl_model st with
  | None => (st, inl (RuntimeError "Model not initialized"))
  | Some _ => (st, inr (JList [JInt 0]))
  end.

(** Modelled from the spec: [rl_core.store_transition], which is not among
    the sources.  It fails before INITIALIZE and on an observation whose
    size is not the declared one; otherwise it is
    [CustomPPO.store_transition] on the model of the session. *)
Definition spec_store_transition (state action reward next_state done : jvalue)
    (st : rl_core_state) : rl_core_state * option exn :=
  match rl_model st with
  | None => (st, Some (RuntimeError "Model not initialized"))
  | Some model =>
      match vector_of state, vector_of action, reward, vector_of next_state, done with
      | Some obs, Some act, JInt r, Some next_obs, JBool d =>
          if (Z.of_nat (length obs) =? rl_observation_size st)
             && (Z.of_nat (length next_obs) =? rl_observation_size st)
          then
            let '(model, w, raised) :=
              store_transition Z.add 0 demo_values demo_log_prob demo_train
                posix_join model (rl_world st) obs act r next_obs d in
            ({| rl_world := w; rl_model := Some model;
                rl_observation_size := rl_observation_size st |}, raised)
          else (st, Some (ValueError "observation does not match the declared size"))
      | _, _, _, _, _ => (st, Some (TypeError "malformed transition"))
      end
  end.

Definition uninitialized : rl_core_state :=
  {| rl_world := demo_world; rl_model := None; rl_observation_size := 0 |}.

(** The server over the reference codec and this [rl_core], with rollout
    horizon 2 and checkpoint interval 50. *)
Definition demo_server (reader : list byte) (st : rl_core_state) :=
  handle_client reference_dumps reference_loads
    (spec_initialize_model 2 50) spec_get_action spec_store_transition reader st.

Definition demo_receive := receive_message reference_loads.

(** The bytes of a message from the client. *)
Definition message (msg_type : MessageType) (payload : jvalue) : list byte :=
  default [] (frame reference_dumps msg_type payload).

(** *** Streams of the client *)

Definition initialize_message : list byte :=
  message INITIALIZE
    (JDict [("boss_name"%string, JStr "lace");
            ("observation_size"%string, JInt 2)]).

Definition get_action_payload : jvalue :=
  JDict [("state"%string, JList [JInt 1; JInt 2])].

Definition get_action_message : list byte := message GET_ACTION get_action_payload.

Definition initialized_payload : jvalue :=
  JDict [("initialized"%string, JBool true); ("boss_name"%string, JStr "lace");
         ("observation_size"%string, JInt 2);
         ("checkpoint_loaded"%string, JBool false)].

Definition not_initialized_payload : jvalue :=
  JDict [("error"%string, JStr "Model not initialized")].

(** A header with length 1 and tag 7, and a STORE_TRANSITION message whose
    payload is the one byte of an opening brace. *)
Definition unknown_tag_message : list byte := [x00; x00; x00; x01; x07].
Definition malformed_json_message : list byte := [x00; x00; x00; x02; x02; x7b].

Lemma frame_not_empty {float : Type} (dumps : json float -> list byte)
    msg_type payload full :
  frame dumps msg_type payload = Some full -> full <> [].
Proof.
  unfold frame. destruct (pack_I _) as [packed|] eqn:Hp; [|done].
  apply pack_I_length in Hp. intros [= <-]. by destruct packed.
Qed.

(** C3 as stated fails.  After a message with an unknown tag, and equally
    after one with a malformed payload, the server has written nothing, so
    no ERROR message; the loop has ended by [except Exception] and the
    writer is closed; the INITIALIZE message that follows is never
    processed. *)
Lemma decode_error_sends_no_error_message :
  let r1 := demo_server (unknown_tag_message ++ initialize_message) uninitialized in
  let r2 := demo_server (malformed_json_message ++ initialize_message) uninitialized in
  (written r1 = [] /\ ended r1 = Some (Failed (ValueError "is not a valid MessageType"))
   /\ closed r1 = true /\ rl_model (core_after r1) = None
   /\ ~ (exists payload error_message rest,
           frame reference_dumps ERROR payload = Some error_message
           /\ written r1 = error_message ++ rest))
  /\ (written r2 = [] /\ ended r2 = Some (Failed JSONDecodeError)
      /\ closed r2 = true /\ rl_model (core_after r2) = None
      /\ ~ (exists payload error_message rest,
              frame reference_dumps ERROR payload = Some error_message
              /\ written r2 = error_message ++ rest)).
Proof.
  assert (Hno : forall ws : list byte,
            ws = [] ->
            ~ (exists payload error_message rest,
                 frame reference_dumps ERROR payload = Some error_message
                 /\ ws = error_message ++ rest)).
  { intros ws -> (payload & em & rest & Hframe & Hw).
    apply frame_not_empty in Hframe. by destruct em. }
  intros r1 r2.
  assert (H1 : written r1 = []) by (vm_compute; reflexivity).
  assert (H2 : written r2 = []) by (vm_compute; reflexivity).
  split.
  - split; [exact H1|]. split; [vm_compute; reflexivity|].
    split; [vm_compute; reflexivity|]. split; [vm_compute; reflexivity|].
    by apply Hno.
  - split; [exact H2|]. split; [vm_compute; reflexivity|].
    split; [vm_compute; reflexivity|]. split; [vm_compute; reflexivity|].
    by apply Hno.
Qed.

(** C3 as the code has it, on the stream with the unknown tag. *)
Lemma decode_error_ends_connection_witness :
  exists e,
    demo_receive ([x00; x00; x00; x01] ++ [x07] ++ initialize_message) = inl e.
Proof.
  destruct (decode_error_ends_connection reference_dumps reference_loads
              (spec_initialize_model 2 50) spec_get_action spec_store_transition
              [x00; x00; x00; x01] initialize_message [] x07 uninitialized O)
    as (e & Hrecv & _).
  - reflexivity.
  - left. vm_compute. reflexivity.
  - exists e. exact Hrecv.
Defined.

(** C4 on the acknowledgement that the server sends. *)
Lemma send_receive_round_trip_witness :
  demo_receive (message TRANSITION_ACK (JDict [("success"%string, JBool true)])
                  ++ get_action_message)
  = inr (Some (TRANSITION_ACK, JDict [("success"%string, JBool true)],
               get_action_message)).
Proof.
  destruct (send_receive_round_trip reference_dumps reference_loads TRANSITION_ACK
              (JDict [("success"%string, JBool true)]) []
              (message TRANSITION_ACK (JDict [("success"%string, JBool true)]))
              get_action_message)
    as (_ & _ & Hrecv).
  - vm_compute. reflexivity.
  - vm_compute. discriminate.
  - vm_compute. reflexivity.
  - exact Hrecv.
Defined.

(** C8 on GET_ACTION before any INITIALIZE, followed by INITIALIZE. *)
Lemma handler_exception_is_answered_witness :
  process_message reference_dumps (spec_initialize_model 2 50) spec_get_action
    spec_store_transition GET_ACTION get_action_payload [] uninitialized
  = ([] ++ message ERROR not_initialized_payload, uninitialized, None).
Proof.
  destruct (handler_exception_is_answered reference_dumps reference_loads
              (spec_initialize_model 2 50) spec_get_action spec_store_transition
              GET_ACTION get_action_payload
              (get_action_message ++ initialize_message) initialize_message
              [] [] (message ERROR not_initialized_payload)
              uninitialized uninitialized (RuntimeError "Model not initialized") O)
    as (Hproc & _).
  - vm_compute. reflexivity.
  - vm_compute. reflexivity.
  - vm_compute. reflexivity.
  - exact Hproc.
Defined.

(** The whole connection of that scenario: the ERROR message, then the
    response to INITIALIZE, and a session that is ready. *)
Lemma get_action_before_initialize :
  let r := demo_server (get_action_message ++ initialize_message) uninitialized in
  written r = message ERROR not_initialized_payload
                ++ message INIT_RESPONSE initialized_payload
  /\ ended r = Some Disconnected
  /\ is_Some (rl_model (core_after r)).
Proof. vm_compute. repeat split. by eexists. Qed.

(** C9 on an ERROR message sent to the server before INITIALIZE. *)
Lemma server_to_client_message_is_ignored_witness :
  demo_server (message ERROR not_initialized_payload ++ initialize_message)
    uninitialized
  = demo_server initialize_message uninitialized.
Proof.
  destruct (server_to_client_message_is_ignored reference_dumps reference_loads
              (spec_initialize_model 2 50) spec_get_action spec_store_transition
              ERROR not_initialized_payload
              (message ERROR not_initialized_payload ++ initialize_message)
              initialize_message [] uninitialized O)
    as (_ & _ & Hsame).
  - reflexivity.
  - vm_compute. reflexivity.
  - exact Hsame.
Defined.

(** ** launch.py *)

(** [json.load] on the bytes of a file: the value, [json.JSONDecodeError],
    or the [UnicodeDecodeError] of bytes that are not UTF-8. *)
Inductive json_loaded (float : Type) : Type :=
  | Loaded (v : json float)
  | NotJson
  | NotUtf8.

Arguments Loaded {float} v.
Arguments NotJson {float}.
Arguments NotUtf8 {float}.

(** What [main] ends in: one of the two servers started with a host and a
    port, [sys.exit] with a status, or an exception. *)
Inductive launched (float : Type) : Type :=
  | SocketSync (host : json float) (port : Z)
  | SocketAsync (host : json float) (port : Z)
  | Exit (status : Z)
  | Raised (e : exn).

Arguments SocketSync {float} host port.
Arguments SocketAsync {float} host port.
Arguments Exit {float} status.
Arguments Raised {float} e.

(** [str.lower] on text that is all ASCII. *)
Definition is_ascii (b : byte) : bool := byte_value b <? 128.

Definition ascii_lower (b : byte) : byte :=
  if (65 <=? byte_value b) && (byte_value b <=? 90)
  then byte_of_value (byte_value b + 32)
  else b.

Section Launch.

Context {float : Type}.

(** The builtins that are left open: [json.load], [dict.update] with a
    value that is not a dict, [str.lower] on text that is not all ASCII,
    and [int] of a string and of a float. *)
Variable json_load : list byte -> json_loaded float.
Variable update_with_other : json float -> exn + list (string * json float).
Variable unicode_lower : string -> string.
Variable int_of_str : string -> exn + Z.
Variable int_of_float : float -> exn + Z.

Definition DEFAULT_CONFIG : list (string * json float) :=
  [("transport"%string, JStr "socket_sync");
   ("host"%string, JStr "localhost");
   ("port"%string, JInt 8000)].

(** [d[k] = v] and [d.update(other)] on the items of a dict: a key that
    is present keeps its place, a new key goes to the end. *)
Fixpoint setitem (items : list (string * json float)) (k : string) (v : json float)
  : list (string * json float) :=
  match items with
  | [] => [(k, v)]
  | (k', v') :: rest =>
      if bool_decide (k' = k) then (k', v) :: rest
      else (k', v') :: setitem rest k v
  end.

Definition update (items other : list (string * json float))
  : list (string * json float) :=
  fold_left (fun acc kv => setitem acc kv.1 kv.2) other items.

(** [load_config] on the file at [path]: [None] when it does not exist,
    its bytes otherwise. *)
Definition load_config (file : option (list byte))
  : exn + list (string * json float) :=
  match file with
  | None => inr DEFAULT_CONFIG
  | Some content =>
      match json_load content with
      | NotJson => inr DEFAULT_CONFIG
      | NotUtf8 => inl (ValueError "'utf-8' codec can't decode")
      | Loaded (JDict cfg) => inr (update DEFAULT_CONFIG cfg)
      | Loaded cfg => update_with_other cfg
      end
  end.

Definition lower (s : string) : string :=
  let bs := String.list_byte_of_string s in
  if forallb is_ascii bs
  then String.string_of_list_byte (map ascii_lower bs)
  else unicode_lower s.

(** [v.lower()] and [int(v)] on a value of the configuration. *)
Definition lower_of (v : json float) : exn + string :=
  match v with
  | JStr s => inr (lower s)
  | JNull => inl (AttributeError "'NoneType' object has no attribute 'lower'")
  | JBool _ => inl (AttributeError "'bool' object has no attribute 'lower'")
  | JInt _ => inl (AttributeError "'int' object has no attribute 'lower'")
  | JFloat _ => inl (AttributeError "'float' object has no attribute 'lower'")
  | JList _ => inl (AttributeError "'list' object has no attribute 'lower'")
  | JDict _ => inl (AttributeError "'dict' object has no attribute 'lower'")
  end.

Definition int (v : json float) : exn + Z :=
  match v with
  | JInt n => inr n
  | JBool b => inr (if b then 1 else 0)
  | JStr s => int_of_str s
  | JFloat x => int_of_float x
  | JNull =>
      inl (TypeError "int() argument must be a string, a bytes-like object or a real number, not 'NoneType'")
  | JList _ =>
      inl (TypeError "int() argument must be a string, a bytes-like object or a real number, not 'list'")
  | JDict _ =>
      inl (TypeError "int() argument must be a string, a bytes-like object or a real number, not 'dict'")
  end.

(** [main] on the configuration file. *)
Definition main (file : option (list byte)) : launched float :=
  match load_config file with
  | inl e => Raised e
  | inr cfg =>
      match lower_of (get (JDict cfg) "transport" (JStr "socket_sync")) with
      | inl e => Raised e
      | inr transport =>
          let host := get (JDict cfg) "host" (JStr "localhost") in
          match int (get (JDict cfg) "port" (JInt 8000)) with
          | inl e => Raised e
          | inr port =>
              if String.eqb transport "socket_sync" then SocketSync host port
              else if String.eqb transport "socket_async" then SocketAsync host port
              else Exit 1
          end
      end
  end.

Lemma dict_get_cons k' v' rest (k : string) :
  dict_get ((k', v') :: rest) k
  = if bool_decide (k' = k) then Some v' else dict_get (float := float) rest k.
Proof. unfold dict_get. simpl. by destruct (bool_decide (k' = k)). Qed.

Lemma dict_get_setitem items k v k' :
  dict_get (setitem items k v) k'
  = if bool_decide (k = k') then Some v else dict_get items k'.
Proof.
  induction items as [|[k0 v0] rest IH]; simpl.
  - rewrite dict_get_cons. done.
  - destruct (bool_decide (k0 = k)) eqn:Hk0.
    + apply bool_decide_eq_true in Hk0 as ->. rewrite !dict_get_cons.
      by destruct (bool_decide (k = k')).
    + apply bool_decide_eq_false in Hk0. rewrite !dict_get_cons, IH.
      destruct (bool_decide (k0 = k')) eqn:Hk0'; [|done].
      apply bool_decide_eq_true in Hk0' as ->.
      by rewrite bool_decide_eq_false_2 by congruence.
Qed.

Lemma dict_get_update other : forall items k,
  dict_get (update items other) k
  = match dict_get (reverse other) k with
    | Some v => Some v
    | None => dict_get items k
    end.
Proof.
  unfold update.
  induction other as [|[k0 v0] other IH]; intros items k; simpl; [done|].
  rewrite IH, dict_get_setitem, reverse_cons.
  assert (Happ : forall l1 l2 : list (string * json float),
            dict_get (l1 ++ l2) k
            = match dict_get l1 k with
              | Some v => Some v
              | None => dict_get l2 k
              end).
  { induction l1 as [|[k1 v1] l1 IH1]; intros l2; [done|].
    simpl. rewrite !dict_get_cons, IH1. by destruct (bool_decide (k1 = k)). }
  rewrite Happ, dict_get_cons.
  destruct (dict_get (reverse other) k); [done|].
  by destruct (bool_decide (k0 = k)).
Qed.

Lemma dict_get_reverse (items : list (string * json float)) k :
  NoDup items.*1 -> dict_get (reverse items) k = dict_get items k.
Proof.
  assert (Hin : forall (l : list (string * json float)) v,
            NoDup l.*1 -> (k, v) ∈ l -> dict_get l k = Some v).
  { induction l as [|[k1 v1] l IH]; intros v Hnd Hel; [by apply elem_of_nil in Hel|].
    rewrite dict_get_cons. inversion Hnd as [|? ? Hni Hnd']; subst.
    apply elem_of_cons in Hel as [[= <- <-]|Hel].
    - by rewrite bool_decide_eq_true_2.
    - rewrite bool_decide_eq_false_2; [by apply IH|].
      intros ->. apply Hni. apply list_elem_of_fmap. by exists (k, v). }
  assert (Hnone : forall l : list (string * json float),
            (forall v, (k, v) ∉ l) -> dict_get l k = None).
  { induction l as [|[k1 v1] l IH]; intros Hni; [done|].
    rewrite dict_get_cons. rewrite bool_decide_eq_false_2.
    - apply IH. intros v Hv. apply (Hni v). by right.
    - intros ->. apply (Hni v1). by left. }
  intros Hnd.
  destruct (dict_get items k) as [v|] eqn:Hget.
  - apply Hin.
    + by rewrite fmap_reverse, reverse_Permutation.
    + apply elem_of_reverse.
      clear -Hget. induction items as [|[k1 v1] l IH]; [done|].
      rewrite dict_get_cons in Hget.
      destruct (bool_decide (k1 = k)) eqn:Hk.
      * apply bool_decide_eq_true in Hk as ->. injection Hget as ->. by left.
      * right. by apply IH.
  - apply Hnone. intros v Hv. rewrite elem_of_reverse in Hv.
    by rewrite (Hin items v Hnd Hv) in Hget.
Qed.

(** X16.  Without a configuration file, and with one that is not JSON,
    [load_config] returns the defaults and [main] starts the synchronous
    server on localhost, port 8000. *)
Theorem no_usable_config_means_defaults (file : option (list byte)) :
  (file = None \/ exists content, file = Some content /\ json_load content = NotJson) ->
  load_config file = inr DEFAULT_CONFIG
  /\ main file = SocketSync (JStr "localhost") 8000.
Proof.
  intros Hfile.
  assert (Hload : load_config file = inr DEFAULT_CONFIG).
  { destruct Hfile as [->|(content & -> & Hload)]; [done|].
    unfold load_config. by rewrite Hload. }
  split; [exact Hload|]. unfold main. rewrite Hload. reflexivity.
Qed.

Lemma dict_get_merged (cfg : list (string * json float)) key :
  NoDup cfg.*1 ->
  dict_get (update DEFAULT_CONFIG cfg) key
  = match dict_get cfg key with
    | Some v => Some v
    | None => dict_get DEFAULT_CONFIG key
    end.
Proof. intros Hnd. by rewrite dict_get_update, dict_get_reverse. Qed.

(** X17.  A configuration file that holds a JSON object overrides the defaults
    key by key: a key of the file has the file's value, any other key has
    its default, so the three keys that [main] reads are always there. *)
Theorem config_file_overrides_defaults (content : list byte)
    (cfg : list (string * json float)) (k : string) :
  json_load content = Loaded (JDict cfg) -> NoDup cfg.*1 ->
  exists merged,
    load_config (Some content) = inr merged
    /\ dict_get merged k
       = match dict_get cfg k with
         | Some v => Some v
         | None => dict_get DEFAULT_CONFIG k
         end
    /\ is_Some (dict_get merged "transport")
    /\ is_Some (dict_get merged "host")
    /\ is_Some (dict_get merged "port").
Proof.
  intros Hload Hnd. exists (update DEFAULT_CONFIG cfg).
  unfold load_config. rewrite Hload. split; [done|].
  split; [by apply dict_get_merged|].
  rewrite !dict_get_merged by done.
  split_and!; (destruct (dict_get cfg _); [by eexists|by eexists]).
Qed.

(** X18.  [main] chooses by the lowered transport.  With a configuration object
    whose transport is an ASCII string and whose port [int] accepts, it
    starts the synchronous or the asynchronous server when the transport,
    whatever its case, spells that name, with the host and port of the file
    or their defaults; for any other name it exits with status 1 and starts
    no server. *)
Theorem main_selects_transport_ignoring_case (content : list byte)
    (cfg : list (string * json float)) (transport : string) (port : Z) :
  json_load content = Loaded (JDict cfg) -> NoDup cfg.*1 ->
  dict_get cfg "transport" = Some (JStr transport) ->
  forallb is_ascii (String.list_byte_of_string transport) = true ->
  int (default (JInt 8000) (dict_get cfg "port")) = inr port ->
  let name :=
    String.string_of_list_byte
      (map ascii_lower (String.list_byte_of_string transport)) in
  let host := default (JStr "localhost") (dict_get cfg "host") in
  main (Some content)
  = if String.eqb name "socket_sync" then SocketSync host port
    else if String.eqb name "socket_async" then SocketAsync host port
    else Exit 1.
Proof.
  intros Hload Hnd Htr Hascii Hport name host.
  unfold main, load_config. rewrite Hload. unfold get.
  rewrite !dict_get_merged by done. rewrite Htr. simpl.
  unfold lower. rewrite Hascii. fold name.
  assert (Hhost : default (JStr "localhost")
                    match dict_get cfg "host" with
                    | Some v => Some v
                    | None => dict_get DEFAULT_CONFIG "host"
                    end = host).
  { subst host. by destruct (dict_get cfg "host"). }
  assert (Hport' : default (JInt 8000)
                     match dict_get cfg "port" with
                     | Some v => Some v
                     | None => dict_get DEFAULT_CONFIG "port"
                     end = default (JInt 8000) (dict_get cfg "port")).
  { by destruct (dict_get cfg "port"). }
  rewrite Hhost, Hport', Hport. reflexivity.
Qed.

End Launch.

(** ** The further properties on concrete inputs *)

(** X1 on a concrete input. *)
Lemma every_update_trains_on_a_full_rollout_witness :
  Forall (fun rollout : list (@entry vec vec Z unit unit) =>
            Z.of_nat (length rollout) = 2)
    (drop (length (rollouts (trace demo_world)))
       (rollouts (trace (demo_run [request 1 false; request 1 true;
                                   request 1 false; request 1 false;
                                   request 1 false]
                           (demo_model 2 0, demo_world)).2))).
Proof.
  destruct (every_update_trains_on_a_full_rollout Z.add 0 demo_values
              demo_log_prob demo_train posix_join 2 (demo_model 2 0) demo_world
              [request 1 false; request 1 true; request 1 false;
               request 1 false; request 1 false] [])
    as (Hall & _).
  - lia.
  - apply demo_model_ready. lia.
  - reflexivity.
  - exact Hall.
Defined.

(** X2 on a concrete input. *)
Lemma episode_count_follows_history_witness :
  let st := demo_run [request 1 true; request 1 false; request 1 true]
              (demo_model 2 0, demo_world) in
  Z.of_nat (length (history st.1 st.2))
    - Z.of_nat (length (history (demo_model 2 0) demo_world))
  = episodes_completed st.1 - episodes_completed (demo_model 2 0).
Proof.
  destruct (episode_count_follows_history Z.add 0 demo_values demo_log_prob
              demo_train posix_join 2 (demo_model 2 0) demo_world
              [request 1 true; request 1 false; request 1 true])
    as (_ & Hsame).
  - lia.
  - apply demo_model_ready. lia.
  - exact Hsame.
Defined.

Lemma horizon_one_trains_on_every_request_witness :
  times_trained (demo_run [request 1 false; request 1 true; request 1 false]
                   (demo_model 1 0, demo_world)).1
  = times_trained (demo_model 1 0) + 3.
Proof.
  destruct (horizon_one_trains_on_every_request Z.add 0 demo_values
              demo_log_prob demo_train posix_join (demo_model 1 0) demo_world
              [request 1 false; request 1 true; request 1 false])
    as (_ & Htt & _).
  - apply demo_model_ready. lia.
  - exact Htt.
Defined.

(** X3 on a concrete input. *)
Lemma other_lists_are_untouched_witness :
  contents (demo_run [request 1 true] (demo_model 2 0, demo_world)).2 5%nat
  = contents demo_world 5%nat.
Proof.
  apply (other_lists_are_untouched Z.add 0 demo_values demo_log_prob demo_train
           posix_join (demo_model 2 0) demo_world [request 1 true] 5%nat).
  discriminate.
Defined.

(** X4 on a concrete input. *)
Lemma omitted_history_is_one_list_witness :
  let st := demo_run [request 5 true] (demo_model 2 0, demo_world) in
  history (demo_model 7 3) st.2 = history st.1 st.2.
Proof.
  destruct (omitted_history_is_one_list Z.add 0 demo_values demo_log_prob
              demo_train posix_join O O 2 7 true (Some "lace"%string)
              (Some "lace"%string) (Some 0) (Some 3) None None None None
              demo_world [request 5 true])
    as (Hsame & _).
  - lia.
  - by eexists.
  - exact Hsame.
Defined.

(** A model constructed without boss name, with checkpoint interval 1. *)
Definition nameless_model : @CustomPPO vec vec Z unit unit nat :=
  __init__ 0 O 2 true None (Some 1) None None None.

(** X5 on a concrete input. *)
Lemma checkpoint_without_boss_name_raises_witness :
  let res := store_transition Z.add 0 demo_values demo_log_prob demo_train
               posix_join nameless_model demo_world [0] [1] 4 [0] true in
  res.2
  = Some (TypeError
            "join() argument must be str, bytes, or os.PathLike object, not 'NoneType'")
  /\ episodes_completed res.1.1 = episodes_completed nameless_model + 1.
Proof.
  destruct (checkpoint_without_boss_name_raises Z.add 0 demo_values
              demo_log_prob demo_train posix_join nameless_model demo_world
              [0] [1] 4 [0])
    as (Hraised & Hec & _).
  - reflexivity.
  - reflexivity.
  - split; [exact Hraised|exact Hec].
Defined.

(** X6 on a concrete input. *)
Lemma checkpoints_lie_at_multiples_of_interval_witness :
  let st := demo_run [request 1 true; request 1 true; request 1 true]
              (demo_model 3 2, demo_world) in
  Forall (fun n => save_freq (demo_model 3 2) <> 0
                   /\ n mod save_freq (demo_model 3 2) = 0
                   /\ episodes_completed (demo_model 3 2) < n
                      <= episodes_completed st.1)
    (drop (length (saves (trace demo_world))) (saves (trace st.2))).
Proof.
  destruct (checkpoints_lie_at_multiples_of_interval Z.add 0 demo_values
              demo_log_prob demo_train posix_join 3 (demo_model 3 2) demo_world
              [request 1 true; request 1 true; request 1 true])
    as (_ & Hall).
  - lia.
  - apply demo_model_ready. lia.
  - exact Hall.
Defined.

Lemma run_saves_disabled_witness :
  saves (trace (demo_run [request 1 true; request 1 true]
                  (demo_model 3 0, demo_world)).2)
  = saves (trace demo_world).
Proof.
  apply (run_saves_disabled Z.add 0 demo_values demo_log_prob demo_train
           posix_join 3 [request 1 true; request 1 true] (demo_model 3 0)
           demo_world).
  - lia.
  - apply demo_model_ready. lia.
  - reflexivity.
Defined.

(** The connection on the reference codec and the [rl_core] of the spec. *)
Definition demo_process :=
  process_message reference_dumps (spec_initialize_model 2 50) spec_get_action
    spec_store_transition.

(** X8 on a concrete input. *)
Lemma short_stream_disconnects_witness :
  demo_receive [x00; x00; x00] = inl IncompleteReadError.
Proof.
  destruct (short_stream_disconnects reference_dumps reference_loads
              (spec_initialize_model 2 50) spec_get_action spec_store_transition
              [x00; x00; x00] [] uninitialized O)
    as (Hrecv & _).
  - left. simpl. lia.
  - exact Hrecv.
Defined.

(** X9 on a concrete input. *)
Lemma empty_payload_is_empty_dict_witness :
  demo_receive ([x00; x00; x00; x00] ++ [x01] ++ initialize_message)
  = inr (Some (GET_ACTION, JDict [], initialize_message)).
Proof.
  apply (empty_payload_is_empty_dict reference_loads [x00; x00; x00; x00]
           initialize_message x01 GET_ACTION).
  - reflexivity.
  - vm_compute. discriminate.
  - reflexivity.
Defined.

(** X11 on a concrete input. *)
Lemma process_message_writes_at_most_one_response_witness :
  message ERROR not_initialized_payload = []
  \/ exists response_t response full,
       (response_t = response_type GET_ACTION \/ response_t = ERROR)
       /\ server_to_client response_t = true
       /\ frame reference_dumps response_t response = Some full
       /\ message ERROR not_initialized_payload = [] ++ full.
Proof.
  destruct (process_message_writes_at_most_one_response reference_dumps
              (spec_initialize_model 2 50) spec_get_action spec_store_transition
              GET_ACTION get_action_payload []
              (message ERROR not_initialized_payload)
              uninitialized uninitialized None)
    as (Hone & _).
  - vm_compute. reflexivity.
  - exact Hone.
Defined.

Definition missing_done_payload : jvalue :=
  JDict [("state"%string, JList [JInt 1; JInt 2]);
         ("action"%string, JList [JInt 0]);
         ("reward"%string, JInt 3);
         ("next_state"%string, JList [JInt 1; JInt 2])].

(** X12 on a concrete input. *)
Lemma store_transition_with_missing_key_witness :
  demo_process STORE_TRANSITION missing_done_payload [] uninitialized
  = ([] ++ message ERROR (JDict [("error"%string, JStr "'done'")]),
     uninitialized, None).
Proof.
  apply (store_transition_with_missing_key reference_dumps
           (spec_initialize_model 2 50) spec_get_action spec_store_transition
           [("state"%string, JList [JInt 1; JInt 2]);
            ("action"%string, JList [JInt 0]);
            ("reward"%string, JInt 3);
            ("next_state"%string, JList [JInt 1; JInt 2])]
           "done"%string [] (message ERROR (JDict [("error"%string, JStr "'done'")]))
           uninitialized).
  - vm_compute. reflexivity.
  - vm_compute. reflexivity.
Defined.

(** X13 on a concrete input. *)
Lemma payload_that_is_no_dict_witness :
  exists msg,
    (forall key, subscript (JList [JInt 1] : jvalue) key = inl (TypeError msg))
    /\ forall error_message,
         frame reference_dumps ERROR (JDict [("error"%string, JStr msg)])
           = Some error_message ->
         demo_process GET_ACTION (JList [JInt 1]) [] uninitialized
         = ([] ++ error_message, uninitialized, None).
Proof.
  apply (payload_that_is_no_dict reference_dumps (spec_initialize_model 2 50)
           spec_get_action spec_store_transition GET_ACTION (JList [JInt 1])
           [] uninitialized).
  - reflexivity.
  - discriminate.
Defined.

(** A session that is ready, and a complete STORE_TRANSITION payload. *)
Definition ready_state : rl_core_state :=
  core_after (demo_server initialize_message uninitialized).

Definition transition_payload : jvalue :=
  JDict [("state"%string, JList [JInt 1; JInt 2]);
         ("action"%string, JList [JInt 0]);
         ("reward"%string, JInt 3);
         ("next_state"%string, JList [JInt 1; JInt 2]);
         ("done"%string, JBool false)].

(** X14 on a concrete input. *)
Lemma acknowledgement_follows_the_call_witness :
  demo_process STORE_TRANSITION transition_payload [] ready_state
  = ([] ++ message TRANSITION_ACK (JDict [("success"%string, JBool true)]),
     (spec_store_transition (JList [JInt 1; JInt 2]) (JList [JInt 0]) (JInt 3)
        (JList [JInt 1; JInt 2]) (JBool false) ready_state).1,
     None).
Proof.
  apply (acknowledgement_follows_the_call reference_dumps
           (spec_initialize_model 2 50) spec_get_action spec_store_transition
           transition_payload (JList [JInt 1; JInt 2]) (JList [JInt 0]) (JInt 3)
           (JList [JInt 1; JInt 2]) (JBool false) [] ready_state
           (spec_store_transition (JList [JInt 1; JInt 2]) (JList [JInt 0])
              (JInt 3) (JList [JInt 1; JInt 2]) (JBool false) ready_state).1
           None
           (message TRANSITION_ACK (JDict [("success"%string, JBool true)]))).
  - reflexivity.
  - reflexivity.
  - reflexivity.
  - reflexivity.
  - reflexivity.
  - vm_compute. reflexivity.
  - vm_compute. reflexivity.
Defined.

(** The launcher over the reference codec: a file that the codec rejects
    is not JSON, and the builtins left open refuse their argument. *)
Definition demo_json_load (content : list byte) : json_loaded Empty_set :=
  match reference_loads content with
  | Some v => Loaded v
  | None => NotJson
  end.

Definition demo_main (file : option (list byte)) : launched Empty_set :=
  main demo_json_load (fun _ => inl (TypeError "object is not iterable"))
    (fun s => s) (fun _ => inl (ValueError "invalid literal for int()"))
    (fun x : Empty_set => match x with end) file.

Definition demo_load_config (file : option (list byte)) :=
  load_config demo_json_load (fun _ => inl (TypeError "object is not iterable")) file.

Definition async_config : list (string * jvalue) :=
  [("transport"%string, JStr "Socket_ASYNC"); ("port"%string, JInt 9000)].

(** X16 on a concrete input. *)
Lemma no_usable_config_means_defaults_witness :
  demo_main (Some [x7b]) = SocketSync (JStr "localhost") 8000.
Proof.
  destruct (no_usable_config_means_defaults demo_json_load
              (fun _ => inl (TypeError "object is not iterable"))
              (fun s => s) (fun _ => inl (ValueError "invalid literal for int()"))
              (fun x : Empty_set => match x with end) (Some [x7b]))
    as (_ & Hmain).
  - right. exists [x7b]. split; reflexivity.
  - exact Hmain.
Defined.

(** X17 on a concrete input. *)
Lemma config_file_overrides_defaults_witness :
  exists merged,
    demo_load_config (Some (reference_dumps (JDict async_config))) = inr merged
    /\ dict_get merged "host"
       = match dict_get async_config "host" with
         | Some v => Some v
         | None => dict_get DEFAULT_CONFIG "host"
         end
    /\ is_Some (dict_get merged "transport")
    /\ is_Some (dict_get merged "host")
    /\ is_Some (dict_get merged "port").
Proof.
  apply (config_file_overrides_defaults demo_json_load
           (fun _ => inl (TypeError "object is not iterable"))
           (reference_dumps (JDict async_config)) async_config "host"%string).
  - vm_compute. reflexivity.
  - apply (bool_decide_unpack _). vm_compute. reflexivity.
Defined.

(** X18 on a concrete input. *)
Lemma main_selects_transport_ignoring_case_witness :
  demo_main (Some (reference_dumps (JDict async_config)))
  = SocketAsync (JStr "localhost") 9000.
Proof.
  apply (main_selects_transport_ignoring_case demo_json_load
           (fun _ => inl (TypeError "object is not iterable"))
           (fun s => s) (fun _ => inl (ValueError "invalid literal for int()"))
           (fun x : Empty_set => match x with end)
           (reference_dumps (JDict async_config)) async_config
           "Socket_ASYNC"%string 9000).
  - vm_compute. reflexivity.
  - apply (bool_decide_unpack _). vm_compute. reflexivity.
  - reflexivity.
  - vm_compute. reflexivity.
  - reflexivity.
Defined.
